(** * HALO voice agent: the dialog turn engine and the call registries

    A shallow embedding of
    - [VOXIMPLANT_SCENARIO.js], the VoxEngine scenario that drives one call
      (ASR capture, barge-in, turn limit, backend request, TTS playback);
    - [voximplant-bridge/index.js], the bridge's [activeCalls] registry with
      its [cleanup] routine and [/disconnect] endpoint;
    - the [POST /call] request validator printed in [VOXIMPLANT_SETUP.md]
      (Checkpoint 9.1) together with the [create_call] contract.

    The scenario is event driven: every callback of the JavaScript source
    becomes a function from engine state to engine state, and the calls the
    callbacks make on the platform ([say], [sendMediaTo], [hangup],
    [Net.httpRequest], ...) are appended to a trace kept in the state. *)

From Stdlib Require Import NArith ZArith List Bool Lia.
From stdpp Require Import base gmap list.
Import ListNotations.

(** ** JavaScript strings *)

(** A JavaScript string is a sequence of UTF-16 code units. *)
Definition jsstring := list N.

(** [WhiteSpace] and [LineTerminator] code points of ECMAScript, the ones
    [String.prototype.trim] strips. *)
Definition is_white_space (c : N) : bool :=
  ((9 <=? c) && (c <=? 13) ||
   (c =? 32) || (c =? 160) || (c =? 5760) ||
   (8192 <=? c) && (c <=? 8202) ||
   (c =? 8232) || (c =? 8233) || (c =? 8239) || (c =? 8287) ||
   (c =? 12288) || (c =? 65279))%N.

Fixpoint trimStart (s : jsstring) : jsstring :=
  match s with
  | [] => []
  | c :: r => if is_white_space c then trimStart r else s
  end.

Definition trimEnd (s : jsstring) : jsstring := rev (trimStart (rev s)).

Definition trim (s : jsstring) : jsstring := trimEnd (trimStart s).

(** Truthiness of a value that is either absent ([undefined]/[null]) or a
    string: only a non-empty string is truthy. *)
Definition truthy (v : option jsstring) : bool :=
  match v with
  | Some (_ :: _) => true
  | _ => false
  end.

(** The test [!e.text || !e.text.trim()] of the Result handler. *)
Definition blank (text : option jsstring) : bool :=
  negb (truthy text) ||
  match text with
  | Some t => negb (truthy (Some (trim t)))
  | None => true
  end.

(** The fixed lines of the scenario, as UTF-16 code units. *)

(** "Извините, я вас не расслышал. Повторите, пожалуйста." *)
Definition REPROMPT_LINE : jsstring :=
  [1048; 1079; 1074; 1080; 1085; 1080; 1090; 1077; 44; 32; 1103; 32; 1074;
   1072; 1089; 32; 1085; 1077; 32; 1088; 1072; 1089; 1089; 1083; 1099; 1096;
   1072; 1083; 46; 32; 1055; 1086; 1074; 1090; 1086; 1088; 1080; 1090; 1077;
   44; 32; 1087; 1086; 1078; 1072; 1083; 1091; 1081; 1089; 1090; 1072; 46]%N.

(** "Спасибо за обращение! До свидания." *)
Definition CLOSING_LINE : jsstring :=
  [1057; 1087; 1072; 1089; 1080; 1073; 1086; 32; 1079; 1072; 32; 1086; 1073;
   1088; 1072; 1097; 1077; 1085; 1080; 1077; 33; 32; 1044; 1086; 32; 1089;
   1074; 1080; 1076; 1072; 1085; 1080; 1103; 46]%N.

(** "Извините, произошла ошибка. Пожалуйста, перезвоните позже." *)
Definition APOLOGY_LINE : jsstring :=
  [1048; 1079; 1074; 1080; 1085; 1080; 1090; 1077; 44; 32; 1087; 1088; 1086;
   1080; 1079; 1086; 1096; 1083; 1072; 32; 1086; 1096; 1080; 1073; 1082; 1072;
   46; 32; 1055; 1086; 1078; 1072; 1083; 1091; 1081; 1089; 1090; 1072; 44; 32;
   1087; 1077; 1088; 1077; 1079; 1074; 1086; 1085; 1080; 1090; 1077; 32; 1087;
   1086; 1079; 1078; 1077; 46]%N.

(** "Здравствуйте! Я голосовой ассистент HALO. Чем могу помочь?" *)
Definition DEFAULT_GREETING : jsstring :=
  [1047; 1076; 1088; 1072; 1074; 1089; 1090; 1074; 1091; 1081; 1090; 1077; 33;
   32; 1071; 32; 1075; 1086; 1083; 1086; 1089; 1086; 1074; 1086; 1081; 32;
   1072; 1089; 1089; 1080; 1089; 1090; 1077; 1085; 1090; 32; 72; 65; 76; 79;
   46; 32; 1063; 1077; 1084; 32; 1084; 1086; 1075; 1091; 32; 1087; 1086; 1084;
   1086; 1095; 1100; 63]%N.

(** ** The scenario of one call ([VOXIMPLANT_SCENARIO.js]) *)

Module Scenario.

(** Names of the webhook notifications the scenario sends. *)
Inductive webhook_event : Type :=
  | ScenarioStarted
  | CallConnected
  | CallDisconnected
  | CallFailed.

(** Calls made on the platform, in the order they are made ([Logger.write]
    lines are left out). *)
Inductive effect : Type :=
  | Webhook (ev : webhook_event) (ts : N)
  | GetGreeting
  | SaveAIMessage (aiText : jsstring)
  | ProcessText (user_text : jsstring) (prompt : option jsstring)
  | CreateASR
  | SendMediaTo
  | StopMediaTo
  | AsrStop
  | Say (text : jsstring)
  | StopPlayback
  | Hangup
  | Terminate.

(** The global variables of the scenario that the call flow reads or
    writes, the one-shot [PlaybackFinished] listeners that [speak] has
    registered and that have not fired yet (each with the [hangupAfter] it
    closes over, oldest first), the wall clock read by [Date.now()], and the
    trace of platform calls. *)
Record engine : Type := mkEngine {
  MAX_TURNS : nat;
  greetingMessage : jsstring;
  systemPrompt : jsstring;
  currentASR : bool;
  dialogTurnCount : nat;
  isProcessing : bool;
  isListening : bool;
  isSpeaking : bool;
  playbackListeners : list bool;
  clock : N;
  trace : list effect
}.

Definition set_greetingMessage (v : jsstring) (s : engine) : engine :=
  mkEngine (MAX_TURNS s) v (systemPrompt s) (currentASR s)
    (dialogTurnCount s) (isProcessing s) (isListening s) (isSpeaking s)
    (playbackListeners s) (clock s) (trace s).

Definition set_systemPrompt (v : jsstring) (s : engine) : engine :=
  mkEngine (MAX_TURNS s) (greetingMessage s) v (currentASR s)
    (dialogTurnCount s) (isProcessing s) (isListening s) (isSpeaking s)
    (playbackListeners s) (clock s) (trace s).

Definition set_currentASR (v : bool) (s : engine) : engine :=
  mkEngine (MAX_TURNS s) (greetingMessage s) (systemPrompt s) v
    (dialogTurnCount s) (isProcessing s) (isListening s) (isSpeaking s)
    (playbackListeners s) (clock s) (trace s).

Definition set_dialogTurnCount (v : nat) (s : engine) : engine :=
  mkEngine (MAX_TURNS s) (greetingMessage s) (systemPrompt s) (currentASR s)
    v (isProcessing s) (isListening s) (isSpeaking s)
    (playbackListeners s) (clock s) (trace s).

Definition set_isProcessing (v : bool) (s : engine) : engine :=
  mkEngine (MAX_TURNS s) (greetingMessage s) (systemPrompt s) (currentASR s)
    (dialogTurnCount s) v (isListening s) (isSpeaking s)
    (playbackListeners s) (clock s) (trace s).

Definition set_isListening (v : bool) (s : engine) : engine :=
  mkEngine (MAX_TURNS s) (greetingMessage s) (systemPrompt s) (currentASR s)
    (dialogTurnCount s) (isProcessing s) v (isSpeaking s)
    (playbackListeners s) (clock s) (trace s).

Definition set_isSpeaking (v : bool) (s : engine) : engine :=
  mkEngine (MAX_TURNS s) (greetingMessage s) (systemPrompt s) (currentASR s)
    (dialogTurnCount s) (isProcessing s) (isListening s) v
    (playbackListeners s) (clock s) (trace s).

Definition set_playbackListeners (v : list bool) (s : engine) : engine :=
  mkEngine (MAX_TURNS s) (greetingMessage s) (systemPrompt s) (currentASR s)
    (dialogTurnCount s) (isProcessing s) (isListening s) (isSpeaking s)
    v (clock s) (trace s).

Definition set_clock (v : N) (s : engine) : engine :=
  mkEngine (MAX_TURNS s) (greetingMessage s) (systemPrompt s) (currentASR s)
    (dialogTurnCount s) (isProcessing s) (isListening s) (isSpeaking s)
    (playbackListeners s) v (trace s).

(** A call on the platform: recorded at the end of the trace. *)
Definition emit (e : effect) (s : engine) : engine :=
  mkEngine (MAX_TURNS s) (greetingMessage s) (systemPrompt s) (currentASR s)
    (dialogTurnCount s) (isProcessing s) (isListening s) (isSpeaking s)
    (playbackListeners s) (clock s) (trace s ++ [e]).

(** The values the globals are declared with; [Date.now()] is [t0]. *)
Definition initial (t0 : N) : engine :=
  mkEngine 12 DEFAULT_GREETING [] false 0 false false false [] t0 [].

(** The same scenario deployed with another value of [MAX_TURNS]. (The
    [Started] handler may also take [greetingMessage] and [systemPrompt]
    from the custom data; the greeting reply replaces them the same way.) *)
Definition configured (maxTurns : nat) (t0 : N) : engine :=
  mkEngine maxTurns DEFAULT_GREETING [] false 0 false false false [] t0 [].

(** [sendWebhook(event)]: the request carries [Date.now()]. *)
Definition sendWebhook (ev : webhook_event) (s : engine) : engine :=
  emit (Webhook ev (clock s)) s.

(** [startListening()]. *)
Definition startListening (s : engine) : engine :=
  if negb (currentASR s) || isProcessing s || isListening s then s
  else emit SendMediaTo (set_isListening true s).

(** [speak(text, hangupAfter)]: [hangupAfter] is [false] when the caller
    leaves it out. The listener is added after the listeners that are
    still registered. *)
Definition speak (text : jsstring) (hangupAfter : bool) (s : engine) : engine :=
  let s1 := emit (Say text) (set_isSpeaking true s) in
  let s2 := startListening s1 in
  set_playbackListeners (playbackListeners s2 ++ [hangupAfter]) s2.

(** The body of the listener [once] that [speak] registers: it removes
    itself (it is the oldest listener when it runs), clears the flags, and
    hangs up or restarts listening. *)
Definition once (hangupAfter : bool) (s : engine) : engine :=
  let s0 := set_playbackListeners (tail (playbackListeners s)) s in
  let s1 := set_isProcessing false (set_isSpeaking false s0) in
  if hangupAfter then emit Hangup s1
  else if negb (isListening s1) then startListening s1
  else s1.

(** Delivery of [CallEvents.PlaybackFinished]: every listener registered
    when the event fires runs, in registration order. *)
Definition onPlaybackFinished (s : engine) : engine :=
  fold_left (fun st h => once h st) (playbackListeners s) s.

(** [handleError()]. *)
Definition handleError (s : engine) : engine := speak APOLOGY_LINE true s.

(** [saveAIMessage(aiText)]: the reply of the request is only logged. *)
Definition saveAIMessage (aiText : jsstring) (s : engine) : engine :=
  emit (SaveAIMessage aiText) s.

(** [processTextWithAI(userText)], up to the moment the request is sent. *)
Definition processTextWithAI (userText : jsstring) (s : engine) : engine :=
  emit (ProcessText userText
          (if truthy (Some (systemPrompt s)) then Some (systemPrompt s)
           else None)) s.

(** How the request of [processTextWithAI] ends: the promise resolves with
    a status code and a body, of which [parsed] is the [ai_text] string when
    [JSON.parse] succeeds and the field is there ([None] when the [try]
    block throws); or the promise is rejected. *)
Inductive backend_outcome : Type :=
  | Resolved (code : Z) (parsed : option jsstring)
  | Rejected.

(** The [then] and [catch] callbacks of [processTextWithAI]. *)
Definition onBackendOutcome (r : backend_outcome) (s : engine) : engine :=
  match r with
  | Resolved code parsed =>
      if negb (code =? 200)%Z then handleError s
      else match parsed with
           | Some ai_text => speak ai_text false s
           | None => handleError s
           end
  | Rejected => handleError s
  end.

(** [onRecognitionResult(userText)]. *)
Definition onRecognitionResult (userText : jsstring) (s : engine) : engine :=
  let s1 := set_dialogTurnCount (S (dialogTurnCount s))
              (set_isProcessing true s) in
  if MAX_TURNS s1 <? dialogTurnCount s1
  then speak CLOSING_LINE true s1
  else processTextWithAI userText s1.

(** The [ASREvents.CaptureStarted] listener of [initASR]. *)
Definition onCaptureStarted (s : engine) : engine :=
  if isSpeaking s
  then set_isProcessing false (set_isSpeaking false (emit StopPlayback s))
  else s.

(** The [ASREvents.Result] listener of [initASR]; [text] is [e.text]. *)
Definition onASRResult (text : option jsstring) (s : engine) : engine :=
  if isProcessing s then s
  else
    let s1 := set_isListening false (emit StopMediaTo s) in
    if blank text then speak REPROMPT_LINE false s1
    else match text with
         | Some t => onRecognitionResult t s1
         | None => s1
         end.

(** [initASR()]. *)
Definition initASR (s : engine) : engine :=
  set_currentASR true (emit CreateASR s).

(** [onCallConnected()], up to the moment the greeting request is sent. *)
Definition onCallConnected (s : engine) : engine :=
  emit GetGreeting (initASR (sendWebhook CallConnected s)).

(** The callback of the greeting request: [greeting] and [prompt] are the
    fields of the parsed reply ([None] when the request failed, the reply
    did not parse, or the field is absent). *)
Definition onGreetingResponse (greeting prompt : option jsstring)
    (s : engine) : engine :=
  let s1 := if truthy greeting
            then set_greetingMessage (default [] greeting) s else s in
  let s2 := if truthy prompt
            then set_systemPrompt (default [] prompt) s1 else s1 in
  speak (greetingMessage s2) false (saveAIMessage (greetingMessage s2) s2).

(** [onCallDisconnected()] and [onCallFailed(e)] end the scenario. *)
Definition onCallDisconnected (s : engine) : engine :=
  let s1 := if currentASR s then emit AsrStop (emit StopMediaTo s) else s in
  emit Terminate (sendWebhook CallDisconnected s1).

Definition onCallFailed (s : engine) : engine :=
  emit Terminate (sendWebhook CallFailed s).

(** What happens to a connected call before it ends: time passes, and the
    callbacks registered by [onCallConnected], [initASR], [speak] and
    [processTextWithAI] are invoked. *)
Inductive event : Type :=
  | Tick (ms : N)
  | GreetingResponse (greeting prompt : option jsstring)
  | CaptureStarted
  | Result (text : option jsstring)
  | PlaybackFinished
  | BackendOutcome (r : backend_outcome).

Definition step (s : engine) (ev : event) : engine :=
  match ev with
  | Tick ms => set_clock (clock s + ms)%N s
  | GreetingResponse greeting prompt => onGreetingResponse greeting prompt s
  | CaptureStarted => onCaptureStarted s
  | Result text => onASRResult text s
  | PlaybackFinished => onPlaybackFinished s
  | BackendOutcome r => onBackendOutcome r s
  end.

Definition run (s : engine) (evs : list event) : engine :=
  fold_left step evs s.

(** The states of a call answered at time [t0] under turn limit
    [maxTurns]. *)
Definition answered (maxTurns : nat) (t0 : N) : engine :=
  onCallConnected (configured maxTurns t0).

Definition reachable (maxTurns : nat) (t0 : N) (s : engine) : Prop :=
  exists evs, s = run (answered maxTurns t0) evs.

End Scenario.

(** ** The bridge's registry of calls ([voximplant-bridge/index.js]) *)

Module Bridge.

(** A WebSocket to the backend: [close_throws] tells whether [ws.close()]
    throws (the call is wrapped in [try]). *)
Record websocket : Type := mkWs {
  ws_id : nat;
  close_throws : bool
}.

(** A value of [activeCalls]: [{call, ws}], each property possibly unset. *)
Record callData : Type := mkCallData {
  call : option nat;
  ws : option websocket
}.

(** Calls on the SDK objects and lines written to the console by the
    listeners and by [cleanup]. *)
Inductive effect : Type :=
  | LogDisconnected (callId : jsstring)
  | LogFailed (callId : jsstring)
  | LogBackendClosed (callId : jsstring)
  | LogCleanup (callId : jsstring)
  | LogCloseError
  | WsClose (w : nat)
  | CallHangup (c : nat).

Record bridge : Type := mkBridge {
  activeCalls : gmap jsstring callData;
  effects : list effect
}.

Definition emit (e : effect) (b : bridge) : bridge :=
  mkBridge (activeCalls b) (effects b ++ [e]).

Definition set_activeCalls (m : gmap jsstring callData) (b : bridge) : bridge :=
  mkBridge m (effects b).

(** The tail of [connectToCall(callId)]: the SDK call [c] is stored. *)
Definition storeCall (callId : jsstring) (c : nat) (b : bridge) : bridge :=
  let m := match activeCalls b !! callId with
           | Some _ => activeCalls b
           | None => <[callId := mkCallData None None]> (activeCalls b)
           end in
  set_activeCalls (alter (fun d => mkCallData (Some c) (ws d)) callId m) b.

(** The tail of [connectToBackend(callId, voxCall)]: the socket is stored
    when the call is still registered. *)
Definition storeWs (callId : jsstring) (w : websocket) (b : bridge) : bridge :=
  set_activeCalls (alter (fun d => mkCallData (call d) (Some w)) callId
                     (activeCalls b)) b.

(** [cleanup(callId)]. *)
Definition cleanup (callId : jsstring) (b : bridge) : bridge :=
  let b1 := emit (LogCleanup callId) b in
  match activeCalls b1 !! callId with
  | Some d =>
      let b2 := match ws d with
                | Some w =>
                    let b' := emit (WsClose (ws_id w)) b1 in
                    if close_throws w then emit LogCloseError b' else b'
                | None => b1
                end in
      set_activeCalls (delete callId (activeCalls b2)) b2
  | None => b1
  end.

(** What a request handler answers. *)
Inductive response : Type :=
  | Disconnected200 (call_id : jsstring)
  | CallIdRequired400
  | CallNotFound404.

(** [app.post('/disconnect')]; [call_id] is the field of the request body,
    [None] when it is missing. *)
Definition disconnect (call_id : option jsstring) (b : bridge)
    : bridge * response :=
  match call_id with
  | Some (c :: r) =>
      let id := c :: r in
      match activeCalls b !! id with
      | Some (mkCallData (Some h) w) =>
          (cleanup id (emit (CallHangup h) b), Disconnected200 id)
      | _ => (b, CallNotFound404)
      end
  | _ => (b, CallIdRequired400)
  end.

(** The listeners of the SDK call for [Disconnected] and [Failed] log and
    run [cleanup]; the [close] listener of the backend socket logs, hangs
    up the call it was given, and runs [cleanup]. *)
Inductive call_event : Type :=
  | SdkDisconnected
  | SdkFailed
  | BackendClosed (voxCall : option nat).

Definition onCallEvent (callId : jsstring) (ev : call_event) (b : bridge)
    : bridge :=
  match ev with
  | SdkDisconnected => cleanup callId (emit (LogDisconnected callId) b)
  | SdkFailed => cleanup callId (emit (LogFailed callId) b)
  | BackendClosed (Some h) =>
      cleanup callId (emit (CallHangup h) (emit (LogBackendClosed callId) b))
  | BackendClosed None => cleanup callId (emit (LogBackendClosed callId) b)
  end.

End Bridge.

(** ** Call creation ([VOXIMPLANT_SETUP.md], Checkpoints 8.1 and 9.1) *)

Module Orchestrator.

(** A Python [str] is a sequence of code points. *)
Definition pystr := list N.

Inductive status : Type :=
  | Created | Dialing | InProgress | NoAnswer | Completed | Failed.

Inductive disposition : Type :=
  | Interested | NotInterested | CallLater | Neutral | Unknown.

Inductive speaker : Type := User | Assistant.

Record DialogTurn : Type := mkTurn {
  turn_speaker : speaker;
  turn_text : pystr;
  turn_timestamp : nat
}.

Record CallSession : Type := mkSession {
  id : nat;
  phoneNumber : pystr;
  session_status : status;
  session_disposition : option disposition;
  startedAt : option nat;
  endedAt : option nat;
  transcript : list DialogTurn
}.

Inductive error : Type := InvalidArgument | NotFound.

Section Validation.

(** The table behind [\d] in a Python [str] pattern (the code points of
    Unicode category Nd) is not part of the repository. *)
Variable is_decimal_digit : N -> bool.

(** [\d{n}$]: [n] digits, then the end of the string or a final newline. *)
Fixpoint digits_then_end (n : nat) (s : pystr) : bool :=
  match n with
  | O => match s with
         | [] => true
         | [c] => (c =? 10)%N
         | _ => false
         end
  | S n' => match s with
            | c :: r => is_decimal_digit c && digits_then_end n' r
            | [] => false
            end
  end.

(** [re.match(r'^(\+7|8)\d{10}$', v)] of [CallRequest.validate_phone]:
    [true] when the match succeeds and the value is returned, [false]
    when [ValueError('Invalid phone format')] is raised. *)
Definition validate_phone (v : pystr) : bool :=
  match v with
  | 43%N :: 55%N :: r => digits_then_end 10 r
  | 56%N :: r => digits_then_end 10 r
  | _ => false
  end.

(** The [+7...] form of a number that was written with the trunk prefix. *)
Definition normalize_phone (v : pystr) : pystr :=
  match v with
  | 56%N :: r => 43%N :: 55%N :: r
  | _ => v
  end.

(** Modelled from the spec: [createCall] (the orchestrator's [create_call]
    is not among the sources; Checkpoint 8.1 lists its steps). It validates
    the phone format with the pattern above, takes the id the generator
    hands out ([call_id], a UUID), builds a session in state [Created]
    with that id and everything else empty, stores it in the registry
    under the id (a [dict] store: whatever was under that key is replaced)
    and returns it; it fails with [InvalidArgument] on a malformed number,
    leaving the registry alone. *)
Definition createCall (phone : pystr) (call_id : nat)
    (registry : gmap nat CallSession)
    : gmap nat CallSession * (error + CallSession) :=
  if validate_phone phone then
    let session :=
      mkSession call_id (normalize_phone phone) Created None None None [] in
    (<[call_id := session]> registry, inr session)
  else (registry, inl InvalidArgument).

End Validation.

(** [\d] restricted to the ASCII digits. *)
Definition ascii_digit (c : N) : bool := ((48 <=? c) && (c <=? 57))%N.


End Orchestrator.

(** ** Observations on traces and runs *)

Import Scenario.

(** What a handler added to the trace. *)
Definition new_effects (before after : engine) : list effect :=
  drop (length (trace before)) (trace after).

(** Number of captures open at the end of a trace: [sendMediaTo] opens
    one, [stopMediaTo] closes whatever is open. *)
Definition capture_step (n : nat) (e : effect) : nat :=
  match e with
  | SendMediaTo => S n
  | StopMediaTo => 0
  | _ => n
  end.

Definition active_captures (tr : list effect) : nat :=
  fold_left capture_step tr 0.

Definition is_generation_request (e : effect) : bool :=
  match e with
  | ProcessText _ _ => true
  | _ => false
  end.

(** Number of user turns handed to the backend for a reply. *)
Definition generation_requests (tr : list effect) : nat :=
  length (List.filter is_generation_request tr).

Definition is_reprompt (e : effect) : bool :=
  match e with
  | Say t => bool_decide (t = REPROMPT_LINE)
  | _ => false
  end.

Definition reprompts (tr : list effect) : nat :=
  length (List.filter is_reprompt tr).

Definition is_result (ev : event) : bool :=
  match ev with
  | Result _ => true
  | _ => false
  end.

Definition is_playback_finished (ev : event) : bool :=
  match ev with
  | PlaybackFinished => true
  | _ => false
  end.

(** [startListening] gets past its guard. *)
Definition can_listen (s : engine) : bool :=
  currentASR s && negb (isProcessing s) && negb (isListening s).

(** The [prompt] field of the request body. *)
Definition prompt_field (s : engine) : option jsstring :=
  if truthy (Some (systemPrompt s)) then Some (systemPrompt s) else None.

(** A request that does not yield a reply to speak. *)
Definition failed (r : backend_outcome) : bool :=
  match r with
  | Resolved code parsed =>
      negb (code =? 200)%Z ||
      match parsed with
      | Some _ => false
      | None => true
      end
  | Rejected => true
  end.

(** The transient failures of the error taxonomy: the request timed out or
    was rejected by the network, or the backend answered 408, 429, 503 or
    504. *)
Definition transient (r : backend_outcome) : bool :=
  match r with
  | Resolved code _ =>
      ((code =? 408) || (code =? 429) || (code =? 503) || (code =? 504))%Z
  | Rejected => true
  end.

(** Events of a conversation in which the user is never understood: every
    recognition result is blank, and no backend reply arrives (none is
    asked for). *)
Definition unheard (ev : event) : bool :=
  match ev with
  | Result text => blank text
  | BackendOutcome _ => false
  | _ => true
  end.

(** *** Invariants of a call *)

(** No capture is open while [isListening] is clear, and never more than
    one is. *)
Definition capture_inv (s : engine) : Prop :=
  (isListening s = false -> active_captures (trace s) = 0) /\
  active_captures (trace s) <= 1.

(** The user turns handed to the backend never outnumber the turns
    counted, nor the limit. *)
Definition turn_inv (s : engine) : Prop :=
  generation_requests (trace s) <= dialogTurnCount s /\
  generation_requests (trace s) <= MAX_TURNS s.

(** While the user is never understood, no listener asks for a hang-up,
    the engine has not hung up, no turn is counted and no reply is asked
    for. *)
Definition unheard_inv (s : engine) : Prop :=
  dialogTurnCount s = 0 /\
  generation_requests (trace s) = 0 /\
  ~ In Hangup (trace s) /\
  (forall h, In h (playbackListeners s) -> h = false).

(** A state with its clock set back to zero: what is left is everything
    the handlers decide on. *)
Definition forget_clock (s : engine) : engine := set_clock 0%N s.

Definition is_tick (ev : event) : bool :=
  match ev with
  | Tick _ => true
  | _ => false
  end.

(** Events that are neither the end of a playback nor the start of a
    capture. *)
Definition awaits_playback (ev : event) : bool :=
  match ev with
  | PlaybackFinished | CaptureStarted => false
  | _ => true
  end.

(** *** Some calls

    "да" is [[1076; 1072]], "алло" is [[1072; 1083; 1083; 1086]], "hello"
    is [[104; 101; 108; 108; 111]]. *)

(** One exchange: the user is heard, the backend replies, the reply is
    played to its end. *)
Definition exchange : list event :=
  [Result (Some [1076; 1072]%N);
   BackendOutcome (Resolved 200 (Some [104; 101; 108; 108; 111]%N));
   PlaybackFinished].

(** The greeting is playing. *)
Definition greeting_playing : engine :=
  run (answered 12 0%N) [GreetingResponse None None].

(** The greeting has been played and the engine listens. *)
Definition listening (maxTurns : nat) : engine :=
  run (answered maxTurns 0%N) [GreetingResponse None None; PlaybackFinished].

(** A call limited to two turns, after two exchanges. *)
Definition two_turns_done : engine :=
  run (listening 2) (exchange ++ exchange).

(** The standard call after twelve exchanges. *)
Definition twelve_turns_done : engine :=
  run (listening 12) (concat (repeat exchange 12)).

(** The first user turn has been sent to the backend. *)
Definition awaiting_reply : engine :=
  run (listening 12) [Result (Some [1072; 1083; 1083; 1086]%N)].

(** Two minutes and one second after the answer, the engine listens. *)
Definition late_call : engine :=
  run (answered 12 0%N)
    [GreetingResponse None None; PlaybackFinished; Tick 121000].

(** The user says nothing that is understood, and the re-prompt is played
    to its end. *)
Definition reprompt_round : list event := [Result None; PlaybackFinished].

(** The re-prompt is playing and the user answers over it: the transcript
    is accepted while the listener of the re-prompt is still registered. *)
Definition answered_over_reprompt : engine :=
  run (listening 12) [Result None; Result (Some [1076; 1072]%N)].

(** A bridge with no call, and the id "c1". *)
Definition no_calls : Bridge.bridge := Bridge.mkBridge ∅ [].

Definition c1 : jsstring := [99; 49]%N.

(** The call "c1" connected to the scenario (SDK call 7) and to the
    backend (socket 3). *)
Definition one_call : Bridge.bridge :=
  Bridge.storeWs c1 (Bridge.mkWs 3 false) (Bridge.storeCall c1 7 no_calls).

(** "+79019433546", and the same number with the trunk prefix. *)
Definition phone_plus7 : Orchestrator.pystr :=
  [43; 55; 57; 48; 49; 57; 52; 51; 51; 53; 52; 54]%N.

Definition phone_8 : Orchestrator.pystr :=
  [56; 57; 48; 49; 57; 52; 51; 51; 53; 52; 54]%N.


(** A registry that holds one call, under id 1. *)
Definition one_session : gmap nat Orchestrator.CallSession :=
  {[ 1 := Orchestrator.mkSession 1 phone_plus7 Orchestrator.InProgress
            None (Some 5) None [] ]}.

(** *** The claims as the specification words them *)

(** A transient failure of the generation request is retried: the request
    is sent again, and the apology is not spoken yet. *)
Definition retried (s : engine) (r : backend_outcome) : Prop :=
  let new := new_effects s (step s (BackendOutcome r)) in
  (exists u p, In (ProcessText u p) new) /\ ~ In (Say APOLOGY_LINE) new.

(** The duration limit: in a call answered at [t0], a transcript accepted
    once [maxDurationSeconds] have elapsed is answered by the closing line
    and not by a generation request. *)
Definition duration_limit (maxTurns : nat) (maxDurationSeconds t0 : N)
    : Prop :=
  forall evs t,
    let s := run (answered maxTurns t0) evs in
    isProcessing s = false ->
    blank (Some t) = false ->
    (maxDurationSeconds * 1000 <= clock s - t0)%N ->
    let new := new_effects s (step s (Result (Some t))) in
    In (Say CLOSING_LINE) new /\ generation_requests new = 0.

(** An event for an id that is not registered fails with NotFound inside
    the bridge: the failure is logged and the requester is not told. *)
Definition not_found_is_swallowed (b : Bridge.bridge) (call_id : jsstring)
    : Prop :=
  let (b', r) := Bridge.disconnect (Some call_id) b in
  r <> Bridge.CallNotFound404 /\ Bridge.effects b' <> Bridge.effects b.

(** ** The start of the scenario ([VOXIMPLANT_SCENARIO.js], [AppEvents.Started]) *)

Module Startup.

(** "/voximplant/events" *)
Definition EVENTS_PATH : jsstring :=
  [47; 118; 111; 120; 105; 109; 112; 108; 97; 110; 116; 47; 101; 118; 101;
   110; 116; 115]%N.

(** "https://halo-ai.ru/api" *)
Definition DEFAULT_BACKEND : jsstring :=
  [104; 116; 116; 112; 115; 58; 47; 47; 104; 97; 108; 111; 45; 97; 105; 46;
   114; 117; 47; 97; 112; 105]%N.

(** "+79019433546" *)
Definition DEFAULT_PHONE : jsstring :=
  [43; 55; 57; 48; 49; 57; 52; 51; 51; 53; 52; 54]%N.

(** "78652594087" *)
Definition CALLER_ID : jsstring :=
  [55; 56; 54; 53; 50; 53; 57; 52; 48; 56; 55]%N.

(** [p] is a prefix of [s]. *)
Fixpoint is_prefix (p s : jsstring) : bool :=
  match p, s with
  | [], _ => true
  | a :: p', b :: s' => (a =? b)%N && is_prefix p' s'
  | _ :: _, [] => false
  end.

(** [s.replace(pat, "")] for a string pattern: the first occurrence of
    [pat] is taken out, and [s] is returned as it is when there is none. *)
Fixpoint remove_first (pat s : jsstring) : jsstring :=
  if is_prefix pat s then drop (length pat) s
  else match s with
       | [] => []
       | c :: r => c :: remove_first pat r
       end.

(** [pat] occurs in [s] at one of the first [n] positions. *)
Fixpoint occurs_within (n : nat) (pat s : jsstring) : bool :=
  match n with
  | O => false
  | S n' => is_prefix pat s ||
            match s with
            | [] => false
            | _ :: r => occurs_within n' pat r
            end
  end.

(** The object [JSON.parse(customDataRaw)] yields, with the string fields
    the handler reads ([None] for a field that is absent). *)
Record customData : Type := mkCustomData {
  call_id : option jsstring;
  webhook_url : option jsstring;
  phone : option jsstring;
  greeting : option jsstring;
  prompt : option jsstring
}.

(** The globals the handler sets, and the number it dials. *)
Record globals : Type := mkGlobals {
  callId : jsstring;
  backendUrl : jsstring;
  webhookUrl : jsstring;
  greetingMessage : jsstring;
  systemPrompt : jsstring;
  targetPhone : jsstring
}.

(** The values the globals are declared with, and the test number. *)
Definition declared : globals :=
  mkGlobals [] DEFAULT_BACKEND (DEFAULT_BACKEND ++ EVENTS_PATH)
    DEFAULT_GREETING [] DEFAULT_PHONE.

(** [a || b] and [a ? a : b] on strings that may be absent. *)
Definition or_else (a : option jsstring) (b : jsstring) : jsstring :=
  if truthy a then default [] a else b.

(** The [if (customData) { ... }] block. *)
Definition applyCustomData (d : customData) (g : globals) : globals :=
  let backend :=
    if truthy (webhook_url d)
    then remove_first EVENTS_PATH (default [] (webhook_url d))
    else backendUrl g in
  mkGlobals (or_else (call_id d) []) backend (backend ++ EVENTS_PATH)
    (or_else (greeting d) (greetingMessage g))
    (or_else (prompt d) (systemPrompt g))
    (or_else (phone d) (targetPhone g)).

(** ["call_" + Date.now() + "_" + Math.random().toString(36).slice(2, 8)]:
    [stamp] is the decimal form of the clock and [rnd] the random tail. *)
Definition generatedCallId (stamp rnd : jsstring) : jsstring :=
  [99; 97; 108; 108; 95]%N ++ stamp ++ [95%N] ++ rnd.

(** What the handler asks of the platform. *)
Inductive effect : Type :=
  | SendWebhook (url : jsstring) (ev : webhook_event) (call_id : jsstring)
      (ts : N)
  | CallPSTN (number callerId : jsstring).

(** The [AppEvents.Started] handler. [custom] is the parsed custom data,
    [None] when [VoxEngine.customData()] is empty or does not parse;
    [now] is [Date.now()] when the webhook is sent. *)
Definition onStarted (custom : option customData) (stamp rnd : jsstring)
    (now : N) : globals * list effect :=
  let g1 := match custom with
            | Some d => applyCustomData d declared
            | None => declared
            end in
  let g2 := if truthy (Some (callId g1)) then g1
            else mkGlobals (generatedCallId stamp rnd) (backendUrl g1)
                   (webhookUrl g1) (greetingMessage g1) (systemPrompt g1)
                   (targetPhone g1) in
  (g2, [SendWebhook (webhookUrl g2) ScenarioStarted (callId g2) now;
        CallPSTN (targetPhone g2) CALLER_ID]).

(** The engine as the [Started] handler leaves it. *)
Definition engine_of (g : globals) (t0 : N) : engine :=
  mkEngine 12 (greetingMessage g) (systemPrompt g) false 0 false false false
    [] t0 [].

End Startup.

(** ** The bridge's endpoints and shutdown ([voximplant-bridge/index.js]) *)

Module BridgeApi.

(** What [/connect] answers. *)
Inductive connect_response : Type :=
  | Connecting200 (call_id : jsstring)
  | CallIdRequired400
  | Error500.

(** [app.post('/connect')] with [connectToCall]: [sdk_call] is the call
    [sdk.call] returns, [None] when it throws (the error is logged and
    answered with 500). The console lines of this path are left out. *)
Definition connect (call_id : option jsstring) (sdk_call : option nat)
    (b : Bridge.bridge) : Bridge.bridge * connect_response :=
  match call_id with
  | Some (c :: r) =>
      match sdk_call with
      | Some h => (Bridge.storeCall (c :: r) h b, Connecting200 (c :: r))
      | None => (b, Error500)
      end
  | _ => (b, CallIdRequired400)
  end.

(** The [active_calls] field of [/health]. *)
Definition health_active_calls (b : Bridge.bridge) : nat :=
  size (Bridge.activeCalls b).

(** One round of the [SIGINT] loop, for the entry under [callId]. *)
Definition shutdown_entry (callId : jsstring) (b : Bridge.bridge)
    : Bridge.bridge :=
  match Bridge.activeCalls b !! callId with
  | Some d =>
      Bridge.cleanup callId
        match Bridge.call d with
        | Some h => Bridge.emit (Bridge.CallHangup h) b
        | None => b
        end
  | None => b
  end.

(** The [SIGINT] handler, up to [process.exit]. A [Map] is walked in
    insertion order, which the registry as a finite map does not keep:
    [order] is that order. *)
Definition shutdown (order : list jsstring) (b : Bridge.bridge)
    : Bridge.bridge :=
  fold_left (fun st callId => shutdown_entry callId st) order b.

End BridgeApi.

(** ** The first scenario ([VOXIMPLANT_SETUP.md], step 2) *)

Module SetupScenario.

(** The fields of the custom data the scenario reads. *)
Record customData : Type := mkCustomData {
  call_id : option jsstring;
  phone : option jsstring;
  caller_id : option jsstring;
  webhook_url : option jsstring
}.

(** The [reason] of a webhook. *)
Inductive reason : Type :=
  | Normal
  | Busy
  | NoAnswer
  | ErrorReason (text : jsstring)
  | ScenarioError
  | AnsweringMachine.

Inductive event_name : Type := Connected | Disconnected | Failed.

(** The object posted to the backend; [call_id] is "unknown" in the
    [catch] block when the custom data has none. *)
Record payload : Type := mkPayload {
  event : event_name;
  payload_call_id : option jsstring;
  payload_reason : option reason;
  code : option Z;
  timestamp : option N
}.

Inductive effect : Type :=
  | Post (url : jsstring) (data : payload)
  | CallPSTN (phone callerId : option jsstring)
  | Say
  | SetTimeout5000
  | Hangup
  | Terminate.

(** The globals ([customData] starts as the empty object, [webhookUrl] as
    the empty string), the clock, and the trace. *)
Record scenario : Type := mkScenario {
  customData_ : customData;
  webhookUrl : option jsstring;
  callSession : bool;
  clock : N;
  trace : list effect
}.

Definition declared (t0 : N) : scenario :=
  mkScenario (mkCustomData None None None None) (Some []) false t0 [].

Definition emit (e : effect) (s : scenario) : scenario :=
  mkScenario (customData_ s) (webhookUrl s) (callSession s) (clock s)
    (trace s ++ [e]).

(** "unknown" *)
Definition UNKNOWN : jsstring := [117; 110; 107; 110; 111; 119; 110]%N.

(** [sendWebhook(data)]. *)
Definition sendWebhook (data : payload) (s : scenario) : scenario :=
  if truthy (webhookUrl s) then emit (Post (default [] (webhookUrl s)) data) s
  else s.

(** The [AppEvents.Started] handler. [parsed] is the object
    [JSON.parse(e.customData)] returns, [None] when it throws; [pstn_ok]
    tells whether [VoxEngine.callPSTN] returns a call or throws. *)
Definition onStarted (parsed : option customData) (pstn_ok : bool)
    (s : scenario) : scenario :=
  let failed (s' : scenario) :=
    emit Terminate
      (sendWebhook
         (mkPayload Failed
            (Some (if truthy (call_id (customData_ s'))
                   then default [] (call_id (customData_ s'))
                   else UNKNOWN))
            (Some ScenarioError) None None) s') in
  match parsed with
  | None => failed s
  | Some d =>
      let s1 := mkScenario d (webhook_url d) (callSession s) (clock s)
                  (trace s) in
      if pstn_ok
      then mkScenario d (webhook_url d) true (clock s)
             (trace s ++ [CallPSTN (phone d) (caller_id d)])
      else failed s1
  end.

(** [onCallConnected(e)]. *)
Definition onCallConnected (s : scenario) : scenario :=
  emit SetTimeout5000
    (emit Say
       (sendWebhook
          (mkPayload Connected (call_id (customData_ s)) None None
             (Some (clock s))) s)).

(** The timer of [onCallConnected] fires. *)
Definition onTimeout (s : scenario) : scenario :=
  if callSession s then emit Hangup s else s.

(** [onCallDisconnected(e)]. *)
Definition onCallDisconnected (s : scenario) : scenario :=
  emit Terminate
    (sendWebhook
       (mkPayload Disconnected (call_id (customData_ s)) (Some Normal) None
          (Some (clock s))) s).

(** The reason [onCallFailed] reads off the SIP code. *)
Definition failure_reason (code : Z) (text : jsstring) : reason :=
  if (code =? 486)%Z then Busy
  else if ((code =? 480) || (code =? 408))%Z then NoAnswer
  else ErrorReason text.

(** [onCallFailed(e)] with [e.code] and [e.reason]. *)
Definition onCallFailed (code : Z) (text : jsstring) (s : scenario)
    : scenario :=
  emit Terminate
    (sendWebhook
       (mkPayload Failed (call_id (customData_ s))
          (Some (failure_reason code text)) (Some code) (Some (clock s))) s).

(** [onAMDDetected(e)] with [e.isHuman]. *)
Definition onAMDDetected (isHuman : bool) (s : scenario) : scenario :=
  if isHuman then s
  else emit Hangup
         (sendWebhook
            (mkPayload Failed (call_id (customData_ s))
               (Some AnsweringMachine) None None) s).

Inductive call_event : Type :=
  | Tick (ms : N)
  | CallConnected
  | Timeout
  | CallDisconnected
  | CallFailed (code : Z) (text : jsstring)
  | AMDDetected (isHuman : bool).

Definition step (s : scenario) (ev : call_event) : scenario :=
  match ev with
  | Tick ms =>
      mkScenario (customData_ s) (webhookUrl s) (callSession s)
        (clock s + ms)%N (trace s)
  | CallConnected => onCallConnected s
  | Timeout => onTimeout s
  | CallDisconnected => onCallDisconnected s
  | CallFailed code text => onCallFailed code text s
  | AMDDetected isHuman => onAMDDetected isHuman s
  end.

Definition run (s : scenario) (evs : list call_event) : scenario :=
  fold_left step evs s.

Definition is_post (e : effect) : bool :=
  match e with
  | Post _ _ => true
  | _ => false
  end.

End SetupScenario.

(** ** More observations *)

(** The first of the candidates that is a non-empty string, [fallback]
    when there is none. *)
Fixpoint first_truthy (candidates : list (option jsstring))
    (fallback : jsstring) : jsstring :=
  match candidates with
  | [] => fallback
  | c :: rest => if truthy c then default [] c else first_truthy rest fallback
  end.

Definition is_greeting_response (ev : event) : bool :=
  match ev with
  | GreetingResponse _ _ => true
  | _ => false
  end.

(** The prompt a non-empty string becomes in the request body. *)
Definition prompt_of (p : jsstring) : option jsstring :=
  if truthy (Some p) then Some p else None.

(** "https://x.io" *)
Definition x_io : jsstring :=
  [104; 116; 116; 112; 115; 58; 47; 47; 120; 46; 105; 111]%N.

(** ** Blank transcripts *)

Lemma trimStart_all_white (s : jsstring) :
  forallb is_white_space (trimStart s) = forallb is_white_space s.
Proof.
  induction s as [|c r IH]; simpl; [reflexivity|].
  destruct (is_white_space c) eqn:Hc; simpl; [exact IH|].
  rewrite Hc. reflexivity.
Qed.

Lemma trimStart_nil (s : jsstring) :
  trimStart s = [] <-> forallb is_white_space s = true.
Proof.
  induction s as [|c r IH]; simpl; [tauto|].
  destruct (is_white_space c); simpl; [exact IH|].
  split; discriminate.
Qed.

Lemma forallb_white_rev (s : jsstring) :
  forallb is_white_space (rev s) = forallb is_white_space s.
Proof.
  induction s as [|c r IH]; simpl; [reflexivity|].
  rewrite forallb_app, IH. simpl. rewrite andb_true_r. apply andb_comm.
Qed.

Lemma trim_all_white (s : jsstring) :
  forallb is_white_space (trim s) = forallb is_white_space s.
Proof.
  unfold trim, trimEnd.
  now rewrite forallb_white_rev, trimStart_all_white, forallb_white_rev,
    trimStart_all_white.
Qed.

(** [trim] leaves nothing exactly when every code unit is white space. *)
Lemma trim_nil (s : jsstring) :
  trim s = [] <-> forallb is_white_space s = true.
Proof.
  split.
  - intros H. rewrite <- trim_all_white, H. reflexivity.
  - intros H. apply trimStart_nil in H. unfold trim. rewrite H. reflexivity.
Qed.

(** X1. The Result handler takes a transcript for blank exactly when the
    text is absent or every code unit of it is white space (the empty
    string included). *)
Lemma blank_spec (text : option jsstring) :
  blank text = match text with
               | Some t => forallb is_white_space t
               | None => true
               end.
Proof.
  destruct text as [t|]; [|reflexivity].
  unfold blank.
  destruct (forallb is_white_space t) eqn:Hw.
  - apply trim_nil in Hw. rewrite Hw. simpl. apply orb_true_r.
  - destruct t as [|c r]; [discriminate|]. simpl.
    destruct (trim (c :: r)) eqn:Ht; [|reflexivity].
    apply trim_nil in Ht. congruence.
Qed.

Example blank_absent : blank None = true.
Proof. vm_compute. reflexivity. Qed.

Example blank_spaces : blank (Some [32; 9; 160; 10]%N) = true.
Proof. vm_compute. reflexivity. Qed.

Example blank_da : blank (Some [32; 1076; 1072; 32]%N) = false.
Proof. vm_compute. reflexivity. Qed.

Example trim_da : trim [32; 1076; 1072; 32; 10]%N = [1076; 1072]%N.
Proof. reflexivity. Qed.

(** ** The engine's handlers, field by field *)

Lemma new_effects_app (s s' : engine) (l : list effect) :
  trace s' = trace s ++ l -> new_effects s s' = l.
Proof.
  intros H. unfold new_effects. rewrite H. apply drop_app_length.
Qed.

Lemma active_captures_app (tr l : list effect) :
  active_captures (tr ++ l) = fold_left capture_step l (active_captures tr).
Proof. unfold active_captures. apply fold_left_app. Qed.

Lemma generation_requests_app (tr l : list effect) :
  generation_requests (tr ++ l) =
  generation_requests tr + generation_requests l.
Proof.
  unfold generation_requests. now rewrite List.filter_app, length_app.
Qed.

Lemma reprompts_app (tr l : list effect) :
  reprompts (tr ++ l) = reprompts tr + reprompts l.
Proof. unfold reprompts. now rewrite List.filter_app, length_app. Qed.

(** Projections of updated states. *)
Ltac project :=
  cbn [MAX_TURNS greetingMessage systemPrompt currentASR dialogTurnCount
       isProcessing isListening isSpeaking playbackListeners clock trace
       emit set_isListening set_isSpeaking set_isProcessing
       set_dialogTurnCount set_playbackListeners set_clock
       set_greetingMessage set_systemPrompt set_currentASR] in *.

(** [startListening]: one [sendMediaTo] when the guard lets it through,
    nothing otherwise. *)
Lemma startListening_spec (s : engine) :
  startListening s =
  if can_listen s then emit SendMediaTo (set_isListening true s) else s.
Proof.
  destruct s as [mt gm sp asr cnt proc lis spk pl clk tr].
  now destruct asr, proc, lis.
Qed.

Lemma speak_trace (text : jsstring) (h : bool) (s : engine) :
  trace (speak text h s) =
  trace s ++ Say text :: (if can_listen s then [SendMediaTo] else []).
Proof.
  destruct s as [mt gm sp asr cnt proc lis spk pl clk tr].
  destruct asr, proc, lis; cbn; rewrite <- ?app_assoc; reflexivity.
Qed.

Lemma speak_fields (text : jsstring) (h : bool) (s : engine) :
  MAX_TURNS (speak text h s) = MAX_TURNS s /\
  currentASR (speak text h s) = currentASR s /\
  dialogTurnCount (speak text h s) = dialogTurnCount s /\
  isProcessing (speak text h s) = isProcessing s /\
  isListening (speak text h s) = (isListening s || can_listen s) /\
  isSpeaking (speak text h s) = true /\
  playbackListeners (speak text h s) = playbackListeners s ++ [h] /\
  clock (speak text h s) = clock s.
Proof.
  destruct s as [mt gm sp asr cnt proc lis spk pl clk tr].
  destruct asr, proc, lis; repeat split.
Qed.

Lemma once_trace (h : bool) (s : engine) :
  trace (once h s) =
  trace s ++ (if h then [Hangup]
              else if currentASR s && negb (isListening s)
                   then [SendMediaTo] else []).
Proof.
  destruct s as [mt gm sp asr cnt proc lis spk pl clk tr].
  destruct h, asr, lis; cbn; rewrite ?app_nil_r; reflexivity.
Qed.

Lemma once_fields (h : bool) (s : engine) :
  MAX_TURNS (once h s) = MAX_TURNS s /\
  currentASR (once h s) = currentASR s /\
  dialogTurnCount (once h s) = dialogTurnCount s /\
  isProcessing (once h s) = false /\
  isListening (once h s) =
    (isListening s || negb h && currentASR s) /\
  isSpeaking (once h s) = false /\
  playbackListeners (once h s) = tail (playbackListeners s) /\
  clock (once h s) = clock s.
Proof.
  destruct s as [mt gm sp asr cnt proc lis spk pl clk tr].
  destruct h, asr, lis; repeat split.
Qed.

(** Whatever every listener preserves, the delivery of
    [PlaybackFinished] preserves. *)
Lemma onPlaybackFinished_ind (P : engine -> Prop) :
  (forall h s, P s -> P (once h s)) ->
  forall s, P s -> P (onPlaybackFinished s).
Proof.
  intros Hstep s. unfold onPlaybackFinished.
  generalize (playbackListeners s) as hs. intros hs. revert s.
  induction hs as [|h hs IH]; simpl; intros s Hs; [exact Hs|].
  apply IH, Hstep, Hs.
Qed.

(** The listeners that fire are all removed. *)
Lemma fold_once_listeners (hs rest : list bool) (s : engine) :
  playbackListeners s = hs ++ rest ->
  playbackListeners (fold_left (fun st h => once h st) hs s) = rest.
Proof.
  revert s. induction hs as [|h hs IH]; simpl; intros s Hs; [exact Hs|].
  apply IH. destruct (once_fields h s) as (_ & _ & _ & _ & _ & _ & Hl & _).
  rewrite Hl, Hs. reflexivity.
Qed.

Lemma onPlaybackFinished_listeners (s : engine) :
  playbackListeners (onPlaybackFinished s) = [].
Proof.
  unfold onPlaybackFinished. apply fold_once_listeners.
  now rewrite app_nil_r.
Qed.

(** The trace only grows. *)
Lemma fold_once_trace (hs : list bool) (s : engine) :
  exists l, trace (fold_left (fun st h => once h st) hs s) = trace s ++ l /\
            (In true hs -> In Hangup l) /\
            (In Hangup l -> In true hs) /\
            generation_requests l = 0 /\ reprompts l = 0.
Proof.
  revert s. induction hs as [|h hs IH]; simpl; intros s.
  - exists []. rewrite app_nil_r. repeat split; auto; intros [].
  - destruct (IH (once h s)) as (l & Hl & Hin & Hout & Hg & Hr).
    rewrite once_trace in Hl. rewrite <- app_assoc in Hl.
    eexists. split; [exact Hl|].
    rewrite generation_requests_app, reprompts_app, Hg, Hr.
    destruct h; simpl.
    + repeat split; auto.
    + destruct (currentASR s && negb (isListening s)); simpl;
        intuition (try discriminate).
Qed.

(** *** Recognition results *)

Lemma result_discarded (text : option jsstring) (s : engine) :
  isProcessing s = true -> step s (Result text) = s.
Proof. intros H. simpl. unfold onASRResult. now rewrite H. Qed.

Lemma result_blank (text : option jsstring) (s : engine) :
  isProcessing s = false -> blank text = true ->
  let s' := step s (Result text) in
  trace s' = trace s ++ [StopMediaTo; Say REPROMPT_LINE] ++
             (if currentASR s then [SendMediaTo] else []) /\
  isListening s' = currentASR s /\
  isProcessing s' = false /\
  isSpeaking s' = true /\
  dialogTurnCount s' = dialogTurnCount s /\
  MAX_TURNS s' = MAX_TURNS s /\
  playbackListeners s' = playbackListeners s ++ [false].
Proof.
  intros Hp Hb. simpl. unfold onASRResult. rewrite Hp, Hb.
  set (s1 := set_isListening false (emit StopMediaTo s)).
  destruct (speak_fields REPROMPT_LINE false s1)
    as (-> & _ & -> & -> & -> & -> & -> & _).
  rewrite speak_trace. unfold can_listen. subst s1. project. rewrite Hp.
  destruct (currentASR s); simpl; rewrite <- app_assoc; repeat split.
Qed.

Lemma result_generate (t : jsstring) (s : engine) :
  isProcessing s = false -> blank (Some t) = false ->
  dialogTurnCount s < MAX_TURNS s ->
  let s' := step s (Result (Some t)) in
  trace s' = trace s ++ [StopMediaTo; ProcessText t (prompt_field s)] /\
  isListening s' = false /\
  isProcessing s' = true /\
  isSpeaking s' = isSpeaking s /\
  dialogTurnCount s' = S (dialogTurnCount s) /\
  MAX_TURNS s' = MAX_TURNS s /\
  playbackListeners s' = playbackListeners s.
Proof.
  intros Hp Hb Hlt. simpl. unfold onASRResult. rewrite Hp, Hb.
  unfold onRecognitionResult. project.
  destruct (Nat.ltb_spec (MAX_TURNS s) (S (dialogTurnCount s)))
    as [Hgt|Hle]; [lia|].
  unfold processTextWithAI, prompt_field. project.
  rewrite <- app_assoc. repeat split.
Qed.

Lemma result_limit (t : jsstring) (s : engine) :
  isProcessing s = false -> blank (Some t) = false ->
  MAX_TURNS s <= dialogTurnCount s ->
  let s' := step s (Result (Some t)) in
  trace s' = trace s ++ [StopMediaTo; Say CLOSING_LINE] /\
  isListening s' = false /\
  isProcessing s' = true /\
  isSpeaking s' = true /\
  dialogTurnCount s' = S (dialogTurnCount s) /\
  MAX_TURNS s' = MAX_TURNS s /\
  playbackListeners s' = playbackListeners s ++ [true].
Proof.
  intros Hp Hb Hge. simpl. unfold onASRResult. rewrite Hp, Hb.
  unfold onRecognitionResult. project.
  destruct (Nat.ltb_spec (MAX_TURNS s) (S (dialogTurnCount s)))
    as [Hgt|Hle]; [|lia].
  match goal with
  | |- context [speak CLOSING_LINE true ?st] => set (s1 := st)
  end.
  destruct (speak_fields CLOSING_LINE true s1)
    as (-> & _ & -> & -> & -> & -> & -> & _).
  rewrite speak_trace. unfold can_listen. subst s1. project.
  rewrite andb_false_r. simpl. rewrite <- app_assoc. repeat split.
Qed.

(** *** Backend replies *)

Lemma outcome_failed (r : backend_outcome) (s : engine) :
  failed r = true -> step s (BackendOutcome r) = speak APOLOGY_LINE true s.
Proof.
  destruct r as [code [ai|]|]; simpl; unfold handleError; try reflexivity.
  - destruct (code =? 200)%Z; simpl; [discriminate|reflexivity].
  - destruct (code =? 200)%Z; reflexivity.
Qed.

Lemma outcome_reply (ai_text : jsstring) (s : engine) :
  step s (BackendOutcome (Resolved 200 (Some ai_text))) =
  speak ai_text false s.
Proof. reflexivity. Qed.

Lemma outcome_cases (r : backend_outcome) (s : engine) :
  exists text h, step s (BackendOutcome r) = speak text h s.
Proof.
  destruct r as [code [ai|]|]; simpl; unfold handleError; eauto.
  all: destruct (code =? 200)%Z; simpl; eauto.
Qed.

Lemma transient_failed (r : backend_outcome) :
  transient r = true -> failed r = true.
Proof.
  destruct r as [code parsed|]; simpl; [|reflexivity].
  intros H. destruct (Z.eqb_spec code 200) as [->|]; [discriminate|].
  reflexivity.
Qed.

(** *** The greeting *)

Lemma greeting_cases (greeting prompt : option jsstring) (s : engine) :
  exists text s0,
    step s (GreetingResponse greeting prompt) =
      speak text false (emit (SaveAIMessage text) s0) /\
    MAX_TURNS s0 = MAX_TURNS s /\ currentASR s0 = currentASR s /\
    dialogTurnCount s0 = dialogTurnCount s /\
    isProcessing s0 = isProcessing s /\ isListening s0 = isListening s /\
    isSpeaking s0 = isSpeaking s /\
    playbackListeners s0 = playbackListeners s /\
    clock s0 = clock s /\ trace s0 = trace s.
Proof.
  simpl. unfold onGreetingResponse, saveAIMessage.
  eexists _, _. split; [reflexivity|].
  destruct (truthy greeting), (truthy prompt); simpl; repeat split.
Qed.

(** *** What no handler but the playback listener does *)

Lemma not_in_hangup_speak (text : jsstring) (b : bool) :
  ~ In Hangup (Say text :: (if b then [SendMediaTo] else [])).
Proof. destruct b; simpl; intuition discriminate. Qed.

(** Handlers other than the playback listener never hang up and never
    remove a registered listener. *)
Lemma step_keeps_listeners (s : engine) (ev : event) :
  is_playback_finished ev = false ->
  exists l hs,
    trace (step s ev) = trace s ++ l /\ ~ In Hangup l /\
    playbackListeners (step s ev) = playbackListeners s ++ hs.
Proof.
  intros Hev. destruct ev as [ms|g p| |text| |r]; try discriminate.
  - exists [], []. simpl. now rewrite !app_nil_r.
  - destruct (greeting_cases g p s) as
      (text & s0 & -> & _ & _ & _ & _ & _ & _ & Hl & _ & Ht).
    destruct (speak_fields text false (emit (SaveAIMessage text) s0))
      as (_ & _ & _ & _ & _ & _ & Hl' & _).
    rewrite speak_trace, Hl'. simpl. rewrite Ht, Hl, <- app_assoc.
    eexists _, _. split; [reflexivity|]. split; [|reflexivity].
    simpl. intros [H|H]; [discriminate|].
    now apply not_in_hangup_speak in H.
  - simpl. unfold onCaptureStarted. destruct (isSpeaking s).
    + exists [StopPlayback], []. simpl. rewrite app_nil_r.
      split; [reflexivity|]. split; [|reflexivity].
      simpl. intuition discriminate.
    + exists [], []. now rewrite !app_nil_r.
  - destruct (isProcessing s) eqn:Hp.
    { rewrite result_discarded by exact Hp. exists [], [].
      now rewrite !app_nil_r. }
    destruct (blank text) eqn:Hb.
    { destruct (result_blank text s Hp Hb) as (Ht & _ & _ & _ & _ & _ & Hl).
      eexists _, _. split; [exact Ht|]. split; [|exact Hl].
      destruct (currentASR s); simpl; intuition discriminate. }
    destruct text as [t|]; [|discriminate].
    destruct (Nat.lt_ge_cases (dialogTurnCount s) (MAX_TURNS s)) as [Hlt|Hge].
    + destruct (result_generate t s Hp Hb Hlt)
        as (Ht & _ & _ & _ & _ & _ & Hl).
      exists [StopMediaTo; ProcessText t (prompt_field s)], [].
      rewrite app_nil_r. split; [exact Ht|]. split; [|exact Hl].
      simpl. intuition discriminate.
    + destruct (result_limit t s Hp Hb Hge) as (Ht & _ & _ & _ & _ & _ & Hl).
      eexists _, _. split; [exact Ht|]. split; [|exact Hl].
      simpl. intuition discriminate.
  - destruct (outcome_cases r s) as (text & h & ->).
    destruct (speak_fields text h s) as (_ & _ & _ & _ & _ & _ & Hl & _).
    rewrite speak_trace, Hl. eexists _, _.
    split; [reflexivity|]. split; [|reflexivity].
    apply not_in_hangup_speak.
Qed.

Lemma run_app (s : engine) (evs evs' : list event) :
  run s (evs ++ evs') = run (run s evs) evs'.
Proof. unfold run. apply fold_left_app. Qed.

Lemma run_snoc (s : engine) (evs : list event) (ev : event) :
  run s (evs ++ [ev]) = step (run s evs) ev.
Proof. now rewrite run_app. Qed.

(** A pending hang-up request stays pending until playback finishes. *)
Lemma hangup_stays_pending (evs : list event) (s : engine) :
  forallb (fun ev => negb (is_playback_finished ev)) evs = true ->
  In true (playbackListeners s) ->
  In true (playbackListeners (run s evs)).
Proof.
  revert s. induction evs as [|ev evs IH]; simpl; intros s Hq Hin;
    [exact Hin|].
  apply andb_true_iff in Hq as [Hev Hq]. apply negb_true_iff in Hev.
  apply IH; [exact Hq|].
  destruct (step_keeps_listeners s ev Hev) as (l & hs & _ & _ & ->).
  apply in_or_app. now left.
Qed.

(** ... and is served when it does. *)
Lemma pending_hangup_served (s : engine) :
  In true (playbackListeners s) ->
  In Hangup (new_effects s (step s PlaybackFinished)).
Proof.
  intros Hin. simpl. unfold onPlaybackFinished.
  destruct (fold_once_trace (playbackListeners s) s)
    as (l & Hl & Hserve & _).
  rewrite (new_effects_app _ _ _ Hl). auto.
Qed.

(** The hang-up is only ever issued by a playback listener that was
    registered with [hangupAfter]. *)
Lemma hangup_only_after_playback (s : engine) (ev : event) :
  In Hangup (new_effects s (step s ev)) ->
  ev = PlaybackFinished /\ In true (playbackListeners s).
Proof.
  intros Hin. destruct (is_playback_finished ev) eqn:Hev.
  - destruct ev; try discriminate. split; [reflexivity|].
    simpl in Hin. unfold onPlaybackFinished in Hin.
    destruct (fold_once_trace (playbackListeners s) s)
      as (l & Hl & _ & Hback & _).
    rewrite (new_effects_app _ _ _ Hl) in Hin. auto.
  - destruct (step_keeps_listeners s ev Hev) as (l & hs & Hl & Hno & _).
    rewrite (new_effects_app _ _ _ Hl) in Hin. contradiction.
Qed.

(** ** Barge-in *)

(** Only the acceptance of a recognition result sets [isProcessing]. *)
Lemma processing_stays_clear (s : engine) (ev : event) :
  is_result ev = false -> isProcessing s = false ->
  isProcessing (step s ev) = false.
Proof.
  intros Hev Hp. destruct ev as [ms|g p| |text| |r]; try discriminate.
  - exact Hp.
  - destruct (greeting_cases g p s) as
      (text & s0 & -> & _ & _ & _ & Hp0 & _).
    destruct (speak_fields text false (emit (SaveAIMessage text) s0))
      as (_ & _ & _ & -> & _).
    simpl. congruence.
  - simpl. unfold onCaptureStarted. now destruct (isSpeaking s).
  - simpl. apply onPlaybackFinished_ind; [|exact Hp].
    intros h st _. now destruct (once_fields h st) as (_ & _ & _ & -> & _).
  - destruct (outcome_cases r s) as (text & h & ->).
    now destruct (speak_fields text h s) as (_ & _ & _ & -> & _).
Qed.

Lemma processing_stays_clear_run (evs : list event) (s : engine) :
  forallb (fun ev => negb (is_result ev)) evs = true ->
  isProcessing s = false -> isProcessing (run s evs) = false.
Proof.
  revert s. induction evs as [|ev evs IH]; simpl; intros s Hq Hp;
    [exact Hp|].
  apply andb_true_iff in Hq as [Hev Hq]. apply negb_true_iff in Hev.
  apply IH; [exact Hq|]. now apply processing_stays_clear.
Qed.

(** A result that reaches the engine while [isProcessing] is clear is
    processed: capture is stopped, and then the engine re-prompts (blank
    transcript) or counts the turn and answers it. *)
Lemma result_processed (text : option jsstring) (s : engine) :
  isProcessing s = false ->
  exists rest,
    trace (step s (Result text)) = trace s ++ StopMediaTo :: rest /\
    (blank text = true -> In (Say REPROMPT_LINE) rest) /\
    (blank text = false ->
       dialogTurnCount (step s (Result text)) = S (dialogTurnCount s) /\
       ((exists u p, In (ProcessText u p) rest) \/
        In (Say CLOSING_LINE) rest)).
Proof.
  intros Hp. destruct (blank text) eqn:Hb.
  - destruct (result_blank text s Hp Hb) as (Ht & _).
    eexists. split; [exact Ht|]. split; [|discriminate].
    intros _. now left.
  - destruct text as [t|]; [|discriminate].
    destruct (Nat.lt_ge_cases (dialogTurnCount s) (MAX_TURNS s)) as [Hlt|Hge].
    + destruct (result_generate t s Hp Hb Hlt) as (Ht & _ & _ & _ & Hc & _).
      eexists. split; [exact Ht|]. split; [discriminate|].
      intros _. split; [exact Hc|]. left. eexists _, _. now left.
    + destruct (result_limit t s Hp Hb Hge) as (Ht & _ & _ & _ & Hc & _).
      eexists. split; [exact Ht|]. split; [discriminate|].
      intros _. split; [exact Hc|]. right. now left.
Qed.

(** C1. Barge-in: when a capture-started event is delivered while
    [isSpeaking] is set, the handler stops playback and leaves
    [isSpeaking] and [isProcessing] clear; and whatever is delivered next
    short of a recognition result, the next recognition result finds
    [isProcessing] clear and is processed (capture stopped, then re-prompt
    or counted turn) instead of being dropped by the guard. *)
Theorem barge_in (s : engine) :
  isSpeaking s = true ->
  let s' := step s CaptureStarted in
  isSpeaking s' = false /\
  isProcessing s' = false /\
  trace s' = trace s ++ [StopPlayback] /\
  forall evs text,
    forallb (fun ev => negb (is_result ev)) evs = true ->
    let s2 := run s' evs in
    isProcessing s2 = false /\
    step s2 (Result text) <> s2 /\
    exists rest,
      trace (step s2 (Result text)) = trace s2 ++ StopMediaTo :: rest /\
      (blank text = true -> In (Say REPROMPT_LINE) rest) /\
      (blank text = false ->
         dialogTurnCount (step s2 (Result text)) = S (dialogTurnCount s2) /\
         ((exists u p, In (ProcessText u p) rest) \/
          In (Say CLOSING_LINE) rest)).
Proof.
  intros Hs.
  assert (Hclear : isProcessing (step s CaptureStarted) = false).
  { simpl. unfold onCaptureStarted. now rewrite Hs. }
  split; [simpl; unfold onCaptureStarted; now rewrite Hs|].
  split; [exact Hclear|].
  split; [simpl; unfold onCaptureStarted; now rewrite Hs|].
  intros evs text Hevs s2.
  assert (Hp : isProcessing s2 = false)
    by now apply processing_stays_clear_run.
  split; [exact Hp|].
  destruct (result_processed text s2 Hp) as (rest & Ht & Hrest).
  split.
  - intros Heq. rewrite Heq in Ht.
    apply (f_equal (@length effect)) in Ht.
    rewrite length_app in Ht. simpl in Ht. lia.
  - exists rest. now split.
Qed.

Lemma barge_in_witness :
  isSpeaking greeting_playing = true /\
  isSpeaking (step greeting_playing CaptureStarted) = false /\
  isProcessing (step greeting_playing CaptureStarted) = false /\
  trace (step greeting_playing CaptureStarted) =
    trace greeting_playing ++ [StopPlayback].
Proof.
  assert (Hs : isSpeaking greeting_playing = true)
    by (vm_compute; reflexivity).
  split; [exact Hs|].
  destruct (barge_in greeting_playing Hs) as (H1 & H2 & H3 & _).
  exact (conj H1 (conj H2 H3)).
Defined.

Example greeting_interrupted :
  trace (run (answered 12 0%N)
           [GreetingResponse None None; CaptureStarted;
            Result (Some [1076; 1072]%N)]) =
  [Webhook CallConnected 0%N; CreateASR; GetGreeting;
   SaveAIMessage DEFAULT_GREETING; Say DEFAULT_GREETING; SendMediaTo;
   StopPlayback; StopMediaTo; ProcessText [1076; 1072]%N None].
Proof. vm_compute. reflexivity. Qed.

(** ** One capture at a time *)

Lemma capture_inv_speak (text : jsstring) (h : bool) (s : engine) :
  capture_inv s -> capture_inv (speak text h s).
Proof.
  intros [H0 H1]. unfold capture_inv.
  destruct (speak_fields text h s) as (_ & _ & _ & _ & -> & _).
  rewrite speak_trace, active_captures_app. unfold can_listen in *.
  destruct (currentASR s), (isProcessing s), (isListening s); simpl;
    try (split; [intros; try discriminate; auto | auto]).
  all: rewrite H0 by reflexivity; lia.
Qed.

Lemma capture_inv_once (h : bool) (s : engine) :
  capture_inv s -> capture_inv (once h s).
Proof.
  intros [H0 H1]. unfold capture_inv.
  destruct (once_fields h s) as (_ & _ & _ & _ & -> & _).
  rewrite once_trace, active_captures_app.
  destruct h, (currentASR s), (isListening s); simpl;
    try (split; [intros; try discriminate; auto | auto]).
  all: rewrite H0 by reflexivity; lia.
Qed.

Lemma capture_inv_step (s : engine) (ev : event) :
  capture_inv s -> capture_inv (step s ev).
Proof.
  intros Hinv. destruct ev as [ms|g p| |text| |r].
  - exact Hinv.
  - destruct (greeting_cases g p s) as
      (text & s0 & -> & _ & _ & _ & _ & Hl & _ & _ & _ & Ht).
    apply capture_inv_speak. unfold capture_inv. simpl.
    rewrite Hl, Ht, active_captures_app. exact Hinv.
  - simpl. unfold onCaptureStarted. destruct (isSpeaking s); [|exact Hinv].
    unfold capture_inv. simpl. rewrite active_captures_app. exact Hinv.
  - destruct (isProcessing s) eqn:Hp.
    { now rewrite result_discarded. }
    simpl. unfold onASRResult. rewrite Hp.
    assert (H1 : capture_inv (set_isListening false (emit StopMediaTo s))).
    { unfold capture_inv. simpl. rewrite active_captures_app. simpl.
      split; [reflexivity|lia]. }
    destruct (blank text); [now apply capture_inv_speak|].
    destruct text as [t|]; [|exact H1].
    unfold onRecognitionResult.
    match goal with |- context [if ?c then _ else _] => destruct c end.
    + apply capture_inv_speak. exact H1.
    + unfold capture_inv, processTextWithAI. simpl.
      rewrite !active_captures_app. simpl. split; [reflexivity|lia].
  - simpl. apply onPlaybackFinished_ind; [|exact Hinv].
    intros h st. apply capture_inv_once.
  - destruct (outcome_cases r s) as (text & h & ->).
    now apply capture_inv_speak.
Qed.

Lemma capture_inv_answered (maxTurns : nat) (t0 : N) :
  capture_inv (answered maxTurns t0).
Proof. unfold capture_inv. simpl. split; [reflexivity|]. cbv. lia. Qed.

Lemma capture_inv_reachable (maxTurns : nat) (t0 : N) (s : engine) :
  reachable maxTurns t0 s -> capture_inv s.
Proof.
  intros [evs ->]. induction evs as [|ev evs IH] using rev_ind.
  - apply capture_inv_answered.
  - rewrite run_snoc. now apply capture_inv_step.
Qed.

(** C4. [startListening] opens a capture only when [isProcessing] and
    [isListening] are both clear (and sets [isListening] as it does), and
    in every reachable state of a call at most one capture is open, none
    while [isListening] is clear; in particular a capture-started event
    during the greeting opens no second capture. *)
Theorem single_capture :
  (forall s, trace (startListening s) <> trace s ->
     isProcessing s = false /\ isListening s = false /\
     trace (startListening s) = trace s ++ [SendMediaTo] /\
     isListening (startListening s) = true) /\
  (forall maxTurns t0 s, reachable maxTurns t0 s ->
     active_captures (trace s) <= 1 /\
     (isListening s = false -> active_captures (trace s) = 0)) /\
  (forall maxTurns t0,
     let s := run (answered maxTurns t0) [GreetingResponse None None] in
     active_captures (trace s) = 1 /\
     active_captures (trace (step s CaptureStarted)) = 1).
Proof.
  split; [|split].
  - intros s Hne. rewrite startListening_spec in *. unfold can_listen in *.
    destruct (currentASR s), (isProcessing s), (isListening s); simpl in *;
      try congruence.
    repeat split.
  - intros maxTurns t0 s Hr.
    destruct (capture_inv_reachable _ _ _ Hr) as [H0 H1]. now split.
  - intros maxTurns t0. split; vm_compute; reflexivity.
Qed.

Lemma single_capture_witness :
  active_captures (trace (step greeting_playing CaptureStarted)) <= 1.
Proof.
  destruct single_capture as (_ & H & _).
  apply (H 12 0%N). exists [GreetingResponse None None; CaptureStarted].
  vm_compute. reflexivity.
Defined.

(** ** The turn counter and the turn limit *)

Lemma generation_requests_speak (text : jsstring) (b : bool) :
  generation_requests (Say text :: (if b then [SendMediaTo] else [])) = 0.
Proof. now destruct b. Qed.

(** What one event does to the counter and to the number of generation
    requests: nothing, unless it is an accepted non-blank result, which
    counts one turn and asks for a reply if the limit allows. *)
Lemma step_counts (s : engine) (ev : event) :
  exists l,
    trace (step s ev) = trace s ++ l /\
    MAX_TURNS (step s ev) = MAX_TURNS s /\
    ((dialogTurnCount (step s ev) = dialogTurnCount s /\
      generation_requests l = 0) \/
     (exists t, ev = Result (Some t) /\ isProcessing s = false /\
        blank (Some t) = false /\
        dialogTurnCount (step s ev) = S (dialogTurnCount s) /\
        generation_requests l =
          if dialogTurnCount s <? MAX_TURNS s then 1 else 0)).
Proof.
  destruct ev as [ms|g p| |text| |r].
  - exists []. simpl. rewrite app_nil_r. auto.
  - destruct (greeting_cases g p s) as
      (text & s0 & -> & Hm & _ & Hc & _ & _ & _ & _ & _ & Ht).
    destruct (speak_fields text false (emit (SaveAIMessage text) s0))
      as (-> & _ & -> & _).
    rewrite speak_trace. simpl. rewrite Ht, <- app_assoc.
    eexists. split; [reflexivity|]. split; [exact Hm|]. left.
    split; [exact Hc|]. simpl.
    apply (generation_requests_speak text).
  - simpl. unfold onCaptureStarted. destruct (isSpeaking s).
    + exists [StopPlayback]. simpl. auto.
    + exists []. rewrite app_nil_r. auto.
  - destruct (isProcessing s) eqn:Hp.
    { rewrite result_discarded by exact Hp. exists [].
      rewrite app_nil_r. auto. }
    destruct (blank text) eqn:Hb.
    { destruct (result_blank text s Hp Hb)
        as (Ht & _ & _ & _ & Hc & Hm & _).
      eexists. split; [exact Ht|]. split; [exact Hm|]. left.
      split; [exact Hc|]. now destruct (currentASR s). }
    destruct text as [t|]; [|discriminate].
    destruct (Nat.ltb_spec (dialogTurnCount s) (MAX_TURNS s)) as [Hlt|Hge].
    + destruct (result_generate t s Hp Hb Hlt)
        as (Ht & _ & _ & _ & Hc & Hm & _).
      eexists. split; [exact Ht|]. split; [exact Hm|]. right.
      exists t. repeat split; auto.
    + destruct (result_limit t s Hp Hb Hge)
        as (Ht & _ & _ & _ & Hc & Hm & _).
      eexists. split; [exact Ht|]. split; [exact Hm|]. right.
      exists t. repeat split; auto.
  - simpl. unfold onPlaybackFinished.
    destruct (fold_once_trace (playbackListeners s) s)
      as (l & Hl & _ & _ & Hg & _).
    exists l. split; [exact Hl|].
    assert (H : MAX_TURNS (onPlaybackFinished s) = MAX_TURNS s /\
                dialogTurnCount (onPlaybackFinished s) = dialogTurnCount s).
    { apply onPlaybackFinished_ind; [|now split].
      intros h st [H1 H2].
      destruct (once_fields h st) as (-> & _ & -> & _). now split. }
    destruct H as [H1 H2]. unfold onPlaybackFinished in *. auto.
  - destruct (outcome_cases r s) as (text & h & ->).
    destruct (speak_fields text h s) as (-> & _ & -> & _).
    rewrite speak_trace. eexists. split; [reflexivity|].
    split; [reflexivity|]. left. split; [reflexivity|].
    apply generation_requests_speak.
Qed.

Lemma turn_inv_step (s : engine) (ev : event) :
  turn_inv s -> turn_inv (step s ev).
Proof.
  intros [Hc Hm]. unfold turn_inv.
  destruct (step_counts s ev) as (l & -> & -> & [[-> Hg]|Hturn]).
  - rewrite generation_requests_app, Hg. lia.
  - destruct Hturn as (t & _ & _ & _ & -> & Hg).
    rewrite generation_requests_app, Hg.
    destruct (Nat.ltb_spec (dialogTurnCount s) (MAX_TURNS s)); lia.
Qed.

Lemma max_turns_run (s : engine) (evs : list event) :
  MAX_TURNS (run s evs) = MAX_TURNS s.
Proof.
  induction evs as [|ev evs IH] using rev_ind; [reflexivity|].
  rewrite run_snoc.
  destruct (step_counts (run s evs) ev) as (_ & _ & -> & _). exact IH.
Qed.

Lemma turn_inv_reachable (maxTurns : nat) (t0 : N) (s : engine) :
  reachable maxTurns t0 s -> turn_inv s /\ MAX_TURNS s = maxTurns.
Proof.
  intros [evs ->]. split; [|now rewrite max_turns_run].
  induction evs as [|ev evs IH] using rev_ind.
  - unfold turn_inv. simpl. cbv. lia.
  - rewrite run_snoc. now apply turn_inv_step.
Qed.

(** C5. Turn limit. Once [MAX_TURNS] user turns have been counted, the
    next accepted transcript is answered by the closing line with a
    hang-up request and by no generation request, and the call is hung up
    when playback next finishes; in every reachable state at most
    [maxTurns] user turns have been handed to the backend, so with
    [maxTurns = 2] never a third. *)
Theorem turn_limit :
  (forall s t,
     isProcessing s = false ->
     blank (Some t) = false ->
     MAX_TURNS s <= dialogTurnCount s ->
     let s' := step s (Result (Some t)) in
     trace s' = trace s ++ [StopMediaTo; Say CLOSING_LINE] /\
     generation_requests (trace s') = generation_requests (trace s) /\
     playbackListeners s' = playbackListeners s ++ [true] /\
     forall evs,
       forallb (fun ev => negb (is_playback_finished ev)) evs = true ->
       In Hangup (new_effects (run s' evs)
                    (step (run s' evs) PlaybackFinished))) /\
  (forall maxTurns t0 st, reachable maxTurns t0 st ->
     generation_requests (trace st) <= maxTurns) /\
  (forall t0 st, reachable 2 t0 st -> generation_requests (trace st) < 3).
Proof.
  split; [|split].
  - intros s t Hp Hb Hge s'.
    destruct (result_limit t s Hp Hb Hge) as (Ht & _ & _ & _ & _ & _ & Hl).
    fold s' in Ht, Hl.
    split; [exact Ht|]. split; [now rewrite Ht, generation_requests_app|].
    split; [exact Hl|].
    intros evs Hevs. apply pending_hangup_served.
    apply hangup_stays_pending; [exact Hevs|].
    rewrite Hl. apply in_or_app. right. now left.
  - intros maxTurns t0 st Hr.
    destruct (turn_inv_reachable _ _ _ Hr) as [[_ Hm] <-]. exact Hm.
  - intros t0 st Hr.
    destruct (turn_inv_reachable _ _ _ Hr) as [[_ Hm] Heq]. lia.
Qed.

Lemma turn_limit_witness :
  trace (step two_turns_done (Result (Some [1076; 1072]%N))) =
    trace two_turns_done ++ [StopMediaTo; Say CLOSING_LINE] /\
  generation_requests
    (trace (step two_turns_done (Result (Some [1076; 1072]%N)))) = 2.
Proof.
  destruct turn_limit as (H & _ & _).
  destruct (H two_turns_done [1076; 1072]%N) as (H1 & H2 & _).
  - vm_compute. reflexivity.
  - vm_compute. reflexivity.
  - vm_compute. lia.
  - split; [exact H1|]. etransitivity; [exact H2|].
    vm_compute. reflexivity.
Defined.

Example third_turn_closes :
  new_effects two_turns_done
    (run two_turns_done [Result (Some [1076; 1072]%N); PlaybackFinished]) =
  [StopMediaTo; Say CLOSING_LINE; Hangup].
Proof. vm_compute. reflexivity. Qed.

(** ** Blank transcripts and the re-prompt *)

(** C7. A blank (absent, empty or all-white-space) transcript counts no
    user turn and asks for no reply. When it is not dropped by the
    [isProcessing] guard, the engine stops the capture, says the re-prompt
    line once and starts the capture again at once; when it is dropped,
    nothing happens at all. *)
Theorem blank_transcript (s : engine) (text : option jsstring) :
  blank text = true ->
  let s' := step s (Result text) in
  dialogTurnCount s' = dialogTurnCount s /\
  generation_requests (trace s') = generation_requests (trace s) /\
  reprompts (new_effects s s') <= 1 /\
  (isProcessing s = true -> s' = s) /\
  (isProcessing s = false ->
     trace s' = trace s ++ [StopMediaTo; Say REPROMPT_LINE] ++
                (if currentASR s then [SendMediaTo] else []) /\
     isProcessing s' = false /\
     (currentASR s = true ->
        isListening s' = true /\ active_captures (trace s') = 1)).
Proof.
  intros Hb s'. subst s'. destruct (isProcessing s) eqn:Hp.
  - rewrite result_discarded by exact Hp.
    unfold new_effects. rewrite drop_all. simpl.
    repeat split; auto; discriminate.
  - destruct (result_blank text s Hp Hb) as (Ht & Hl & Hp' & _ & Hc & _).
    rewrite (new_effects_app _ _ _ Ht), Ht, generation_requests_app.
    split; [exact Hc|].
    split.
    { destruct (currentASR s);
        match goal with
        | |- _ + ?n = _ => change n with 0
        end; lia. }
    split.
    { destruct (currentASR s);
        match goal with
        | |- ?n <= 1 => change n with 1
        end; lia. }
    split; [discriminate|]. intros _.
    split; [reflexivity|]. split; [exact Hp'|].
    intros Hasr. split; [congruence|].
    rewrite Hasr, active_captures_app. reflexivity.
Qed.

Lemma blank_transcript_witness :
  trace (step (listening 12) (Result (Some [32; 10]%N))) =
  trace (listening 12) ++ [StopMediaTo; Say REPROMPT_LINE; SendMediaTo] /\
  dialogTurnCount (step (listening 12) (Result (Some [32; 10]%N))) = 0.
Proof.
  assert (Hb : blank (Some [32; 10]%N) = true) by (vm_compute; reflexivity).
  assert (Hp : isProcessing (listening 12) = false)
    by (vm_compute; reflexivity).
  destruct (blank_transcript (listening 12) (Some [32; 10]%N) Hb)
    as (Hc & _ & _ & _ & H).
  destruct (H Hp) as (Ht & _).
  split; [exact Ht|exact Hc].
Defined.

(** Every blank transcript gets its own re-prompt. *)
Example two_blanks_two_reprompts :
  new_effects (listening 12)
    (run (listening 12) [Result None; PlaybackFinished; Result (Some [])]) =
  [StopMediaTo; Say REPROMPT_LINE; SendMediaTo;
   StopMediaTo; Say REPROMPT_LINE; SendMediaTo].
Proof. vm_compute. reflexivity. Qed.

(** ** What moves the turn counter *)

Lemma unheard_listeners (s : engine) (ev : event) :
  unheard ev = true ->
  forall h, In h (playbackListeners (step s ev)) ->
            In h (playbackListeners s) \/ h = false.
Proof.
  intros Hev h. destruct ev as [ms|g p| |text| |r]; try discriminate.
  - auto.
  - destruct (greeting_cases g p s) as
      (text & s0 & -> & _ & _ & _ & _ & _ & _ & Hl & _).
    destruct (speak_fields text false (emit (SaveAIMessage text) s0))
      as (_ & _ & _ & _ & _ & _ & -> & _).
    simpl. rewrite Hl. intros Hin. apply in_app_or in Hin as [Hin|[<-|[]]];
      auto.
  - simpl. unfold onCaptureStarted. destruct (isSpeaking s); simpl; auto.
  - simpl in Hev. destruct (isProcessing s) eqn:Hp.
    + rewrite result_discarded by exact Hp. auto.
    + destruct (result_blank text s Hp Hev)
        as (_ & _ & _ & _ & _ & _ & ->).
      intros Hin. apply in_app_or in Hin as [Hin|[<-|[]]]; auto.
  - simpl. rewrite onPlaybackFinished_listeners. intros [].
Qed.

Lemma unheard_inv_step (s : engine) (ev : event) :
  unheard ev = true -> unheard_inv s -> unheard_inv (step s ev).
Proof.
  intros Hev (Hc & Hg & Hh & Hl). unfold unheard_inv.
  destruct (step_counts s ev) as (l & Ht & _ & Hcases).
  assert (Hsame : dialogTurnCount (step s ev) = dialogTurnCount s /\
                  generation_requests l = 0).
  { destruct Hcases as [H|(t & -> & _ & Hb & _)]; [exact H|].
    simpl in Hev. congruence. }
  destruct Hsame as [Hc' Hg'].
  split; [congruence|].
  split; [rewrite Ht, generation_requests_app; lia|].
  split.
  - intros Hin.
    assert (Hnew : In Hangup (new_effects s (step s ev))).
    { rewrite (new_effects_app _ _ _ Ht). rewrite Ht in Hin.
      apply in_app_or in Hin as [Hin|Hin]; [contradiction|exact Hin]. }
    apply hangup_only_after_playback in Hnew as [_ Hin'].
    apply Hl in Hin'. discriminate.
  - intros h Hin. apply (unheard_listeners s ev Hev) in Hin as [Hin|Heq];
      auto.
Qed.

(** One round of the user not being understood: the capture is stopped,
    the re-prompt is said, the capture is opened again, and the engine is
    where it was. *)
Lemma reprompt_round_spec (s : engine) :
  currentASR s = true -> isProcessing s = false ->
  playbackListeners s = [] ->
  let s' := run s reprompt_round in
  trace s' = trace s ++ [StopMediaTo; Say REPROMPT_LINE; SendMediaTo] /\
  currentASR s' = true /\ isProcessing s' = false /\
  playbackListeners s' = [] /\
  dialogTurnCount s' = dialogTurnCount s /\
  MAX_TURNS s' = MAX_TURNS s.
Proof.
  destruct s as [mt gm sp asr cnt proc lis spk pl clk tr].
  cbn [currentASR isProcessing playbackListeners].
  intros -> -> ->. destruct lis; cbn; rewrite <- !app_assoc; repeat split.
Qed.

Lemma reprompt_rounds (n : nat) (s : engine) :
  currentASR s = true -> isProcessing s = false ->
  playbackListeners s = [] ->
  let s' := run s (concat (repeat reprompt_round n)) in
  reprompts (trace s') = reprompts (trace s) + n /\
  dialogTurnCount s' = dialogTurnCount s /\
  MAX_TURNS s' = MAX_TURNS s /\
  (In Hangup (trace s') -> In Hangup (trace s)).
Proof.
  revert s. induction n as [|n IH]; intros s Ha Hp Hl.
  - simpl. repeat split; auto.
  - cbn [repeat concat]. cbv zeta. rewrite run_app.
    destruct (reprompt_round_spec s Ha Hp Hl)
      as (Ht & Ha' & Hp' & Hl' & Hc & Hm).
    destruct (IH (run s reprompt_round) Ha' Hp' Hl')
      as (Hr & Hc' & Hm' & Hh).
    split.
    { rewrite Hr, Ht, reprompts_app.
      change (reprompts [StopMediaTo; Say REPROMPT_LINE; SendMediaTo])
        with 1.
      lia. }
    split; [congruence|]. split; [congruence|].
    intros Hin. apply Hh in Hin. rewrite Ht in Hin.
    apply in_app_or in Hin as [Hin|Hin]; [exact Hin|].
    repeat destruct Hin as [Hin|Hin]; try discriminate. destruct Hin.
Qed.

(** C10. [dialogTurnCount] moves only when a non-blank transcript is
    accepted, and then by one; a blank transcript never moves it, and when
    it is not dropped by the [isProcessing] guard it is answered by the
    re-prompt line, with a listener that does not hang up; a call in which
    every transcript is blank keeps the counter at zero and is never hung
    up by the engine, whatever the turn limit; and after any number [n] of
    re-prompted rounds the engine has said the re-prompt [n] times, counted
    no turn and not hung up, even when the turn limit is zero. *)
Theorem turn_counter :
  (forall s ev,
     dialogTurnCount (step s ev) <> dialogTurnCount s ->
     exists t, ev = Result (Some t) /\ blank (Some t) = false /\
               isProcessing s = false /\
               dialogTurnCount (step s ev) = S (dialogTurnCount s)) /\
  (forall s t,
     isProcessing s = false -> blank (Some t) = false ->
     dialogTurnCount (step s (Result (Some t))) = S (dialogTurnCount s)) /\
  (forall s text,
     blank text = true ->
     dialogTurnCount (step s (Result text)) = dialogTurnCount s) /\
  (forall s text,
     isProcessing s = false -> blank text = true ->
     let s' := step s (Result text) in
     trace s' = trace s ++ [StopMediaTo; Say REPROMPT_LINE] ++
                (if currentASR s then [SendMediaTo] else []) /\
     reprompts (trace s') = S (reprompts (trace s)) /\
     playbackListeners s' = playbackListeners s ++ [false] /\
     dialogTurnCount s' = dialogTurnCount s /\
     MAX_TURNS s' = MAX_TURNS s) /\
  (forall maxTurns t0 evs,
     forallb unheard evs = true ->
     let s := run (answered maxTurns t0) evs in
     dialogTurnCount s = 0 /\
     generation_requests (trace s) = 0 /\
     ~ In Hangup (trace s)) /\
  (forall maxTurns n,
     let s := run (listening maxTurns) (concat (repeat reprompt_round n)) in
     reprompts (trace s) = n /\
     dialogTurnCount s = 0 /\
     MAX_TURNS s = maxTurns /\
     ~ In Hangup (trace s)).
Proof.
  split; [|split; [|split; [|split; [|split]]]].
  - intros s ev Hne.
    destruct (step_counts s ev) as (l & _ & _ & [[Hc _]|Hturn]);
      [contradiction|].
    destruct Hturn as (t & -> & Hp & Hb & Hc & _). exists t. auto.
  - intros s t Hp Hb.
    destruct (result_processed (Some t) s Hp) as (rest & _ & _ & H).
    now destruct (H Hb).
  - intros s text Hb.
    destruct (step_counts s (Result text)) as (l & _ & _ & [[Hc _]|Hturn]);
      [exact Hc|].
    destruct Hturn as (t & [= ->] & _ & Hb' & _). congruence.
  - intros s text Hp Hb s'. subst s'.
    destruct (result_blank text s Hp Hb)
      as (Ht & _ & _ & _ & Hc & Hm & Hl).
    split; [exact Ht|]. split; [|auto].
    rewrite Ht, reprompts_app.
    destruct (currentASR s);
      match goal with
      | |- _ + ?n = _ => change n with 1
      end; lia.
  - intros maxTurns t0 evs Hevs s.
    assert (H : unheard_inv s).
    { subst s. induction evs as [|ev evs IH] using rev_ind.
      - unfold unheard_inv. simpl. repeat split; auto.
        + intros H. repeat destruct H as [H|H]; try discriminate; auto.
        + intros h [].
      - rewrite forallb_app in Hevs. apply andb_true_iff in Hevs as [H1 H2].
        simpl in H2. rewrite andb_true_r in H2.
        rewrite run_snoc. apply unheard_inv_step; auto. }
    destruct H as (Hc & Hg & Hh & _). auto.
  - intros maxTurns n s. subst s.
    destruct (reprompt_rounds n (listening maxTurns))
      as (Hr & Hc & Hm & Hh); try reflexivity.
    split; [exact Hr|]. split; [exact Hc|]. split; [exact Hm|].
    intros Hin. apply Hh in Hin.
    repeat destruct Hin as [Hin|Hin]; try discriminate. destruct Hin.
Qed.

Lemma turn_counter_witness :
  dialogTurnCount
    (run (answered 0 0%N)
       [GreetingResponse None None; PlaybackFinished; Result None;
        PlaybackFinished; Result (Some [32]%N); PlaybackFinished]) = 0 /\
  new_effects (listening 0) (step (listening 0) (Result (Some [32]%N))) =
    [StopMediaTo; Say REPROMPT_LINE; SendMediaTo] /\
  reprompts
    (trace (run (listening 0) (concat (repeat reprompt_round 3)))) = 3.
Proof.
  destruct turn_counter as (_ & _ & _ & Hre & H & Hn).
  assert (Hu : forallb unheard
                 [GreetingResponse None None; PlaybackFinished; Result None;
                  PlaybackFinished; Result (Some [32]%N); PlaybackFinished]
               = true) by (vm_compute; reflexivity).
  assert (Hp : isProcessing (listening 0) = false)
    by (vm_compute; reflexivity).
  assert (Hb : blank (Some [32]%N) = true) by (vm_compute; reflexivity).
  destruct (H 0 0%N _ Hu) as (Hc & _).
  destruct (Hre (listening 0) (Some [32]%N) Hp Hb) as (Ht & _).
  destruct (Hn 0 3) as (Hr & _).
  split; [exact Hc|]. split; [|exact Hr].
  apply new_effects_app. exact Ht.
Defined.

(** ** Recognition results, case by case *)

(** C3. A recognition result delivered while [isProcessing] is set has
    no effect: the state, and with it the trace of requests, is what it
    was. Otherwise the capture is stopped ([stopMediaTo], one effect) and
    [isListening] cleared, and from that state the engine goes on: with a
    blank transcript to the re-prompt branch, with any other transcript to
    generation, [onRecognitionResult], which sets [isProcessing], counts
    the turn and either hands the transcript to the backend or, once the
    turn limit is passed, speaks the closing line with a hang-up
    request. *)
Theorem recognition_result :
  (forall s text, isProcessing s = true -> step s (Result text) = s) /\
  (forall s text,
     isProcessing s = false ->
     let s1 := set_isListening false (emit StopMediaTo s) in
     trace s1 = trace s ++ [StopMediaTo] /\
     isListening s1 = false /\
     (blank text = true ->
      step s (Result text) = speak REPROMPT_LINE false s1) /\
     (forall t, text = Some t -> blank text = false ->
      step s (Result text) = onRecognitionResult t s1)) /\
  (forall s text,
     isProcessing s = false -> blank text = true ->
     let s' := step s (Result text) in
     trace s' = trace s ++ [StopMediaTo; Say REPROMPT_LINE] ++
                (if currentASR s then [SendMediaTo] else []) /\
     isListening s' = currentASR s /\ isProcessing s' = false) /\
  (forall s t,
     isProcessing s = false -> blank (Some t) = false ->
     dialogTurnCount s < MAX_TURNS s ->
     let s' := step s (Result (Some t)) in
     trace s' = trace s ++ [StopMediaTo; ProcessText t (prompt_field s)] /\
     isListening s' = false /\ isProcessing s' = true /\
     dialogTurnCount s' = S (dialogTurnCount s)) /\
  (forall s t,
     isProcessing s = false -> blank (Some t) = false ->
     MAX_TURNS s <= dialogTurnCount s ->
     let s' := step s (Result (Some t)) in
     trace s' = trace s ++ [StopMediaTo; Say CLOSING_LINE] /\
     isListening s' = false /\ isProcessing s' = true /\
     dialogTurnCount s' = S (dialogTurnCount s) /\
     playbackListeners s' = playbackListeners s ++ [true]).
Proof.
  split; [|split; [|split; [|split]]].
  - intros s text. apply result_discarded.
  - intros s text Hp s1. subst s1.
    split; [reflexivity|]. split; [reflexivity|].
    split.
    + intros Hb. simpl. unfold onASRResult. now rewrite Hp, Hb.
    + intros t -> Hb. simpl. unfold onASRResult. now rewrite Hp, Hb.
  - intros s text Hp Hb.
    destruct (result_blank text s Hp Hb) as (Ht & Hl & Hp' & _). auto.
  - intros s t Hp Hb Hlt.
    destruct (result_generate t s Hp Hb Hlt)
      as (Ht & Hl & Hp' & _ & Hc & _).
    auto.
  - intros s t Hp Hb Hge.
    destruct (result_limit t s Hp Hb Hge)
      as (Ht & Hl & Hp' & _ & Hc & _ & Hls).
    auto.
Qed.

Lemma recognition_result_witness :
  step (listening 12) (Result (Some [1076; 1072]%N)) =
    onRecognitionResult [1076; 1072]%N
      (set_isListening false (emit StopMediaTo (listening 12))) /\
  trace (step (listening 12) (Result (Some [1076; 1072]%N))) =
  trace (listening 12) ++ [StopMediaTo; ProcessText [1076; 1072]%N None].
Proof.
  destruct recognition_result as (_ & Hgo & _ & H & _).
  assert (Hp : isProcessing (listening 12) = false)
    by (vm_compute; reflexivity).
  assert (Hb : blank (Some [1076; 1072]%N) = false)
    by (vm_compute; reflexivity).
  assert (Hlt : dialogTurnCount (listening 12) < MAX_TURNS (listening 12))
    by (vm_compute; lia).
  split.
  - destruct (Hgo (listening 12) (Some [1076; 1072]%N) Hp)
      as (_ & _ & _ & Hgen).
    exact (Hgen [1076; 1072]%N eq_refl Hb).
  - destruct (H (listening 12) [1076; 1072]%N Hp Hb Hlt) as (Ht & _).
    exact Ht.
Defined.

(** The same three deliveries on the standard call: while a reply is
    awaited a result is dropped; a blank result in the listening state is
    re-prompted; after twelve exchanges the thirteenth transcript is
    counted and closed. *)
Example result_while_processing :
  step awaiting_reply (Result (Some [1076; 1072]%N)) = awaiting_reply.
Proof. apply result_discarded. vm_compute. reflexivity. Qed.

Example result_blank_reprompted :
  new_effects (listening 12) (step (listening 12) (Result (Some [32]%N))) =
  [StopMediaTo; Say REPROMPT_LINE; SendMediaTo].
Proof. vm_compute. reflexivity. Qed.

Example thirteenth_turn_closes :
  dialogTurnCount twelve_turns_done = 12 /\
  new_effects twelve_turns_done
    (step twelve_turns_done (Result (Some [1076; 1072]%N))) =
  [StopMediaTo; Say CLOSING_LINE] /\
  dialogTurnCount (step twelve_turns_done (Result (Some [1076; 1072]%N))) =
  13.
Proof. vm_compute. repeat split. Qed.

(** ** Failed generation requests *)

(** C2, as the code has it. Every failed generation request (a status
    other than 200, a reply that does not parse, a rejected request), and
    so every transient failure, is answered at once by the apology line
    with a hang-up request: no request is sent again, and the call is hung
    up when playback next finishes. *)
Theorem failed_request :
  (forall r, transient r = true -> failed r = true) /\
  (forall s r,
     failed r = true ->
     let s' := step s (BackendOutcome r) in
     trace s' = trace s ++ Say APOLOGY_LINE ::
                (if can_listen s then [SendMediaTo] else []) /\
     generation_requests (trace s') = generation_requests (trace s) /\
     playbackListeners s' = playbackListeners s ++ [true] /\
     forall evs,
       forallb (fun ev => negb (is_playback_finished ev)) evs = true ->
       In Hangup (new_effects (run s' evs)
                    (step (run s' evs) PlaybackFinished))).
Proof.
  split; [exact transient_failed|].
  intros s r Hf s'. subst s'. rewrite outcome_failed by exact Hf.
  destruct (speak_fields APOLOGY_LINE true s)
    as (_ & _ & _ & _ & _ & _ & Hl & _).
  split; [apply speak_trace|].
  split.
  { rewrite speak_trace, generation_requests_app,
      (generation_requests_speak APOLOGY_LINE). lia. }
  split; [exact Hl|].
  intros evs Hevs. apply pending_hangup_served.
  apply hangup_stays_pending; [exact Hevs|].
  rewrite Hl. apply in_or_app. right. now left.
Qed.

Lemma failed_request_witness :
  trace (step awaiting_reply (BackendOutcome (Resolved 429 None))) =
  trace awaiting_reply ++ [Say APOLOGY_LINE].
Proof.
  destruct failed_request as (Htr & H).
  destruct (H awaiting_reply (Resolved 429 None)) as (Ht & _).
  - apply Htr. vm_compute. reflexivity.
  - exact Ht.
Defined.

(** The first user turn is with the backend and the backend answers 429:
    the request is not sent again and the apology is spoken. *)
Lemma failed_request_counterexample :
  transient (Resolved 429 None) = true /\
  generation_requests (trace awaiting_reply) = 1 /\
  ~ retried awaiting_reply (Resolved 429 None).
Proof.
  split; [vm_compute; reflexivity|]. split; [vm_compute; reflexivity|].
  unfold retried.
  assert (H : new_effects awaiting_reply
                (step awaiting_reply (BackendOutcome (Resolved 429 None))) =
              [Say APOLOGY_LINE]) by (vm_compute; reflexivity).
  rewrite H. intros [_ Hno]. apply Hno. now left.
Qed.

(** ** Elapsed time *)

Lemma set_clock_eta (s : engine) :
  s = set_clock (clock s) (forget_clock s).
Proof. now destruct s. Qed.

Lemma forget_set_clock (c : N) (s : engine) :
  forget_clock (set_clock c s) = forget_clock s.
Proof. reflexivity. Qed.

Lemma speak_set_clock (text : jsstring) (h : bool) (c : N) (s : engine) :
  speak text h (set_clock c s) = set_clock c (speak text h s).
Proof.
  destruct s as [mt gm sp asr cnt proc lis spk pl clk tr].
  now destruct asr, proc, lis.
Qed.

Lemma once_set_clock (h : bool) (c : N) (s : engine) :
  once h (set_clock c s) = set_clock c (once h s).
Proof.
  destruct s as [mt gm sp asr cnt proc lis spk pl clk tr].
  now destruct h, asr, lis.
Qed.

Lemma fold_once_set_clock (hs : list bool) (c : N) (s : engine) :
  fold_left (fun st h => once h st) hs (set_clock c s) =
  set_clock c (fold_left (fun st h => once h st) hs s).
Proof.
  revert s. induction hs as [|h hs IH]; simpl; intros s; [reflexivity|].
  now rewrite once_set_clock, IH.
Qed.

Lemma onASRResult_set_clock (text : option jsstring) (c : N) (s : engine) :
  onASRResult text (set_clock c s) = set_clock c (onASRResult text s).
Proof.
  unfold onASRResult. project.
  destruct (isProcessing s); [reflexivity|].
  change (set_isListening false (emit StopMediaTo (set_clock c s)))
    with (set_clock c (set_isListening false (emit StopMediaTo s))).
  destruct (blank text); [apply speak_set_clock|].
  destruct text as [t|]; [|reflexivity].
  unfold onRecognitionResult. project.
  destruct (MAX_TURNS s <? S (dialogTurnCount s)); [|reflexivity].
  match goal with
  | |- speak _ _ ?a = set_clock _ (speak _ _ ?b) =>
      change a with (set_clock c b)
  end.
  apply speak_set_clock.
Qed.

(** No handler reads the clock: an event other than the passage of time
    does the same to a state whatever its clock shows. *)
Lemma step_set_clock (ev : event) (c : N) (s : engine) :
  is_tick ev = false ->
  step (set_clock c s) ev = set_clock c (step s ev).
Proof.
  intros Hev. destruct ev as [ms|g p| |text| |r]; try discriminate.
  - simpl. unfold onGreetingResponse, saveAIMessage.
    destruct (truthy g), (truthy p); project;
      match goal with
      | |- speak _ _ ?a = set_clock _ (speak _ _ ?b) =>
          change a with (set_clock c b)
      end; apply speak_set_clock.
  - simpl. unfold onCaptureStarted. project.
    now destruct (isSpeaking s).
  - apply onASRResult_set_clock.
  - simpl. unfold onPlaybackFinished. project.
    apply fold_once_set_clock.
  - simpl. unfold onBackendOutcome, handleError.
    destruct r as [code [ai|]|]; try destruct (code =? 200)%Z; simpl;
      apply speak_set_clock.
Qed.

Lemma step_modulo_clock (ev : event) (s1 s2 : engine) :
  forget_clock s1 = forget_clock s2 ->
  forget_clock (step s1 ev) = forget_clock (step s2 ev).
Proof.
  intros H. destruct (is_tick ev) eqn:Hev.
  - destruct ev; try discriminate. exact H.
  - rewrite (set_clock_eta s1), (set_clock_eta s2), H.
    rewrite !step_set_clock by exact Hev. reflexivity.
Qed.

Lemma forget_clock_trace (s1 s2 : engine) :
  forget_clock s1 = forget_clock s2 -> trace s1 = trace s2.
Proof. intros H. apply (f_equal trace) in H. exact H. Qed.

(** Taking the passage of time out of a run changes the clock and nothing
    else. *)
Lemma run_without_ticks (evs : list event) (s1 s2 : engine) :
  forget_clock s1 = forget_clock s2 ->
  forget_clock (run s1 evs) =
  forget_clock (run s2 (List.filter (fun ev => negb (is_tick ev)) evs)).
Proof.
  revert s1 s2. induction evs as [|ev evs IH]; intros s1 s2 H; [exact H|].
  destruct (is_tick ev) eqn:Hev.
  - destruct ev; try discriminate. simpl. apply IH. exact H.
  - cbn [List.filter]. rewrite Hev.
    change (forget_clock (run (step s1 ev) evs) =
            forget_clock
              (run (step s2 ev)
                 (List.filter (fun ev => negb (is_tick ev)) evs))).
    apply IH. now apply step_modulo_clock.
Qed.

(** Where a hang-up request comes from: the closing line at the turn
    limit, or the apology for a failed generation request. *)
Lemma hangup_requests (s : engine) (ev : event) :
  In true (playbackListeners (step s ev)) ->
  In true (playbackListeners s) \/
  (exists t, ev = Result (Some t) /\ isProcessing s = false /\
     blank (Some t) = false /\ MAX_TURNS s <= dialogTurnCount s /\
     new_effects s (step s ev) = [StopMediaTo; Say CLOSING_LINE]) \/
  (exists r, ev = BackendOutcome r /\ failed r = true /\
     new_effects s (step s ev) =
       Say APOLOGY_LINE :: (if can_listen s then [SendMediaTo] else [])).
Proof.
  destruct ev as [ms|g p| |text| |r].
  - now left.
  - destruct (greeting_cases g p s) as
      (text & s0 & -> & _ & _ & _ & _ & _ & _ & Hl & _).
    destruct (speak_fields text false (emit (SaveAIMessage text) s0))
      as (_ & _ & _ & _ & _ & _ & -> & _).
    simpl. rewrite Hl. intros Hin.
    apply in_app_or in Hin as [Hin|[Hin|[]]]; [now left|discriminate].
  - simpl. unfold onCaptureStarted. destruct (isSpeaking s); now left.
  - destruct (isProcessing s) eqn:Hp.
    { rewrite result_discarded by exact Hp. now left. }
    destruct (blank text) eqn:Hb.
    { destruct (result_blank text s Hp Hb) as (_ & _ & _ & _ & _ & _ & ->).
      intros Hin.
      apply in_app_or in Hin as [Hin|[Hin|[]]]; [now left|discriminate]. }
    destruct text as [t|]; [|discriminate].
    destruct (Nat.lt_ge_cases (dialogTurnCount s) (MAX_TURNS s)) as [Hlt|Hge].
    + destruct (result_generate t s Hp Hb Hlt)
        as (_ & _ & _ & _ & _ & _ & ->).
      now left.
    + destruct (result_limit t s Hp Hb Hge) as (Ht & _).
      intros _. right. left. exists t.
      repeat split; auto. now apply new_effects_app.
  - simpl. rewrite onPlaybackFinished_listeners. intros [].
  - destruct (failed r) eqn:Hf.
    + intros _. right. right. exists r.
      split; [reflexivity|]. split; [exact Hf|].
      rewrite outcome_failed by exact Hf.
      apply new_effects_app, speak_trace.
    + destruct r as [code [ai|]|]; simpl in Hf;
        try (rewrite orb_true_r in Hf); try discriminate.
      rewrite orb_false_r in Hf. simpl. rewrite Hf.
      destruct (speak_fields ai false s) as (_ & _ & _ & _ & _ & _ & -> & _).
      intros Hin.
      apply in_app_or in Hin as [Hin|[Hin|[]]]; [now left|discriminate].
Qed.

(** C6, as the code has it. The engine never compares the clock with
    anything: a run does to the call what the same run without the passage
    of time does; however late a non-blank transcript is accepted, it is
    sent for generation, and nothing is said, as long as fewer than
    [MAX_TURNS] turns have been counted; a hang-up is issued only while a
    playback-finished event is handled and a listener registered with
    [hangupAfter] is pending; and such a listener is registered only with
    the closing line at the turn limit or with the apology for a failed
    generation request. *)
Theorem no_duration_check :
  (forall s evs,
     forget_clock (run s evs) =
     forget_clock (run s (List.filter (fun ev => negb (is_tick ev)) evs))) /\
  (forall s ms t,
     isProcessing s = false -> blank (Some t) = false ->
     dialogTurnCount s < MAX_TURNS s ->
     trace (run s [Tick ms; Result (Some t)]) =
     trace s ++ [StopMediaTo; ProcessText t (prompt_field s)]) /\
  (forall s ev,
     In Hangup (new_effects s (step s ev)) ->
     ev = PlaybackFinished /\ In true (playbackListeners s)) /\
  (forall s ev,
     In true (playbackListeners (step s ev)) ->
     In true (playbackListeners s) \/
     (exists t, ev = Result (Some t) /\ isProcessing s = false /\
        blank (Some t) = false /\ MAX_TURNS s <= dialogTurnCount s /\
        new_effects s (step s ev) = [StopMediaTo; Say CLOSING_LINE]) \/
     (exists r, ev = BackendOutcome r /\ failed r = true /\
        new_effects s (step s ev) =
          Say APOLOGY_LINE :: (if can_listen s then [SendMediaTo] else []))).
Proof.
  split; [|split; [|split]].
  - intros s evs. now apply run_without_ticks.
  - intros s ms t Hp Hb Hlt. simpl.
    destruct (result_generate t (set_clock (clock s + ms)%N s))
      as (Ht & _); auto.
  - exact hangup_only_after_playback.
  - exact hangup_requests.
Qed.

Lemma no_duration_check_witness :
  trace (run (listening 12)
           [Tick 3600000; Result (Some [1072; 1083; 1083; 1086]%N)]) =
  trace (listening 12) ++
  [StopMediaTo; ProcessText [1072; 1083; 1083; 1086]%N None].
Proof.
  destruct no_duration_check as (_ & H & _).
  apply (H (listening 12) 3600000%N [1072; 1083; 1083; 1086]%N).
  - vm_compute. reflexivity.
  - vm_compute. reflexivity.
  - vm_compute. lia.
Defined.

(** A hang-up listener waits for the next playback-finished event,
    whichever utterance that event belongs to: when the closing line is
    spoken while the re-prompt is still playing, the one event serves both
    listeners. *)
Example hangup_with_earlier_playback :
  playbackListeners
    (run two_turns_done [Result None; Result (Some [1076; 1072]%N)]) =
    [false; true] /\
  new_effects two_turns_done
    (run two_turns_done
       [Result None; Result (Some [1076; 1072]%N); PlaybackFinished]) =
  [StopMediaTo; Say REPROMPT_LINE; SendMediaTo;
   StopMediaTo; Say CLOSING_LINE; SendMediaTo; Hangup].
Proof. vm_compute. split; reflexivity. Qed.

(** What the duration limit would make of one accepted transcript. *)
Lemma duration_limit_closing (maxTurns : nat) (d t0 : N)
    (evs : list event) (t : jsstring) :
  duration_limit maxTurns d t0 ->
  isProcessing (run (answered maxTurns t0) evs) = false ->
  blank (Some t) = false ->
  (d * 1000 <= clock (run (answered maxTurns t0) evs) - t0)%N ->
  In (Say CLOSING_LINE)
    (new_effects (run (answered maxTurns t0) evs)
       (step (run (answered maxTurns t0) evs) (Result (Some t)))).
Proof. intros H Hp Hb Hd. now apply H. Qed.

(** With the limit at 120 seconds: 121 seconds after the answer a
    transcript is accepted, and it is sent for generation; the closing
    line is not spoken. *)
Lemma no_duration_check_counterexample :
  (120 * 1000 <= clock late_call - 0)%N /\
  isProcessing late_call = false /\
  new_effects late_call
    (step late_call (Result (Some [1072; 1083; 1083; 1086]%N))) =
    [StopMediaTo; ProcessText [1072; 1083; 1083; 1086]%N None] /\
  ~ duration_limit 12 120 0.
Proof.
  assert (Hlate : (120 * 1000 <= clock late_call - 0)%N)
    by (vm_compute; discriminate).
  assert (Hp : isProcessing late_call = false) by (vm_compute; reflexivity).
  assert (Hnew : new_effects late_call
                   (step late_call
                      (Result (Some [1072; 1083; 1083; 1086]%N))) =
                 [StopMediaTo;
                  ProcessText [1072; 1083; 1083; 1086]%N None])
    by (vm_compute; reflexivity).
  split; [exact Hlate|]. split; [exact Hp|]. split; [exact Hnew|].
  intros H.
  assert (Hb : blank (Some [1072; 1083; 1083; 1086]%N) = false)
    by (vm_compute; reflexivity).
  assert (Hin : In (Say CLOSING_LINE)
                  (new_effects late_call
                     (step late_call
                        (Result (Some [1072; 1083; 1083; 1086]%N))))).
  { exact (duration_limit_closing 12 120 0
             [GreetingResponse None None; PlaybackFinished; Tick 121000]
             [1072; 1083; 1083; 1086]%N H Hp Hb Hlate). }
  rewrite Hnew in Hin.
  destruct Hin as [Hin|[Hin|[]]]; discriminate.
Qed.

(** ** The bridge: calls that are not, or no longer, registered *)

Lemma cleanup_absent (b : Bridge.bridge) (callId : jsstring) :
  Bridge.activeCalls b !! callId = None ->
  Bridge.cleanup callId b = Bridge.emit (Bridge.LogCleanup callId) b.
Proof. intros H. unfold Bridge.cleanup. simpl. now rewrite H. Qed.

Lemma cleanup_registry (b : Bridge.bridge) (callId : jsstring) :
  Bridge.activeCalls (Bridge.cleanup callId b) =
  delete callId (Bridge.activeCalls b).
Proof.
  unfold Bridge.cleanup. simpl.
  destruct (Bridge.activeCalls b !! callId) as [[c [w|]]|] eqn:H; simpl.
  - now destruct (Bridge.close_throws w).
  - reflexivity.
  - symmetry. now apply delete_id.
Qed.

Lemma disconnect_absent (b : Bridge.bridge) (call_id : jsstring) :
  Bridge.activeCalls b !! call_id = None ->
  Bridge.disconnect (Some call_id) b =
  (b, match call_id with
      | [] => Bridge.CallIdRequired400
      | _ => Bridge.CallNotFound404
      end).
Proof.
  intros H. destruct call_id as [|c r]; [reflexivity|].
  unfold Bridge.disconnect. unfold jsstring in *. now rewrite H.
Qed.

(** C9, as the code has it. For a call id that is not in [activeCalls]:
    a [/disconnect] request changes nothing and logs nothing, and answers
    the requester with an error (404 "Call not found" for a non-empty id);
    an SDK or socket event leaves the registry as it is, [cleanup] doing
    no more than write its log line. A call that was cleaned up or
    disconnected is no longer registered, so a repeated terminal event or
    a second [/disconnect] is such a no-op on the registry. *)
Theorem unregistered_call :
  (forall b call_id,
     Bridge.activeCalls b !! call_id = None ->
     Bridge.disconnect (Some call_id) b =
     (b, match call_id with
         | [] => Bridge.CallIdRequired400
         | _ => Bridge.CallNotFound404
         end)) /\
  (forall b callId ev,
     Bridge.activeCalls b !! callId = None ->
     Bridge.cleanup callId b = Bridge.emit (Bridge.LogCleanup callId) b /\
     Bridge.activeCalls (Bridge.onCallEvent callId ev b) =
     Bridge.activeCalls b) /\
  (forall b callId,
     Bridge.activeCalls (Bridge.cleanup callId b) !! callId = None /\
     forall other, other <> callId ->
       Bridge.activeCalls (Bridge.cleanup callId b) !! other =
       Bridge.activeCalls b !! other) /\
  (forall b call_id b',
     Bridge.disconnect (Some call_id) b =
       (b', Bridge.Disconnected200 call_id) ->
     Bridge.activeCalls b' !! call_id = None /\
     Bridge.disconnect (Some call_id) b' = (b', Bridge.CallNotFound404)).
Proof.
  split; [exact disconnect_absent|]. split; [|split].
  - intros b callId ev H. split; [now apply cleanup_absent|].
    destruct ev as [| |[h|]]; simpl; rewrite cleanup_registry; simpl;
      now apply delete_id.
  - intros b callId. rewrite cleanup_registry. split.
    + apply lookup_delete_eq.
    + intros other Hne. now apply lookup_delete_ne.
  - intros b call_id b' H.
    destruct call_id as [|c r]; [discriminate|].
    simpl in H.
    destruct (Bridge.activeCalls b !! (c :: r)) as [[[h|] w]|] eqn:Hl;
      try discriminate.
    injection H as <-.
    assert (Hnone : Bridge.activeCalls
                      (Bridge.cleanup (c :: r)
                         (Bridge.emit (Bridge.CallHangup h) b))
                    !! (c :: r) = None).
    { rewrite cleanup_registry. apply lookup_delete_eq. }
    split; [exact Hnone|].
    now rewrite disconnect_absent.
Qed.

Lemma unregistered_call_witness :
  Bridge.disconnect (Some c1) no_calls = (no_calls, Bridge.CallNotFound404).
Proof.
  destruct unregistered_call as (H & _).
  apply (H no_calls c1). vm_compute. reflexivity.
Defined.

(** A [/disconnect] for an id that is not registered is answered 404, and
    nothing is logged. *)
Lemma unregistered_call_counterexample :
  Bridge.activeCalls no_calls !! c1 = None /\
  Bridge.disconnect (Some c1) no_calls = (no_calls, Bridge.CallNotFound404) /\
  ~ not_found_is_swallowed no_calls c1.
Proof.
  split; [vm_compute; reflexivity|]. split; [vm_compute; reflexivity|].
  unfold not_found_is_swallowed.
  assert (H : Bridge.disconnect (Some c1) no_calls =
              (no_calls, Bridge.CallNotFound404))
    by (vm_compute; reflexivity).
  rewrite H. intros [Hr _]. now apply Hr.
Qed.

Example disconnect_twice :
  let (b1, r1) := Bridge.disconnect (Some c1) one_call in
  let (b2, r2) := Bridge.disconnect (Some c1) b1 in
  r1 = Bridge.Disconnected200 c1 /\
  Bridge.effects b1 =
    [Bridge.CallHangup 7; Bridge.LogCleanup c1; Bridge.WsClose 3] /\
  Bridge.activeCalls b1 = ∅ /\
  r2 = Bridge.CallNotFound404 /\ b2 = b1.
Proof. vm_compute. repeat split. Qed.

(** ** Call creation *)

Section PhoneFormat.

Import Orchestrator.

Variable is_decimal_digit : N -> bool.

(** [\d{n}$] accepts exactly [n] digits followed by nothing or by one
    final newline. *)
Lemma digits_then_end_spec (n : nat) (s : pystr) :
  digits_then_end is_decimal_digit n s = true <->
  exists ds tl, s = ds ++ tl /\ length ds = n /\
                forallb is_decimal_digit ds = true /\
                (tl = [] \/ tl = [10%N]).
Proof.
  revert s. induction n as [|n IH]; intros s; simpl.
  - split.
    + intros H. exists [], s. repeat split.
      destruct s as [|c [|c' r]]; try discriminate; [now left|].
      apply N.eqb_eq in H. subst. now right.
    + intros (ds & tl & -> & Hlen & _ & Htl).
      destruct ds; [|discriminate]. simpl.
      destruct Htl as [->| ->]; reflexivity.
  - destruct s as [|c r].
    + split; [discriminate|].
      intros (ds & tl & Heq & Hlen & _). destruct ds; discriminate.
    + rewrite andb_true_iff, IH. split.
      * intros (Hc & ds & tl & -> & Hlen & Hds & Htl).
        exists (c :: ds), tl. simpl. rewrite Hc, Hds, Hlen. auto.
      * intros (ds & tl & Heq & Hlen & Hds & Htl).
        destruct ds as [|d ds]; [discriminate|].
        simpl in *. injection Heq as -> ->. injection Hlen as Hlen.
        apply andb_true_iff in Hds as [Hd Hds].
        split; [exact Hd|]. exists ds, tl. auto.
Qed.

(** X2. The numbers [validate_phone] accepts are exactly: [+7] or [8],
    then ten digits, then nothing or one final newline. *)
Lemma validate_phone_spec (v : pystr) :
  validate_phone is_decimal_digit v = true <->
  exists prefix ds tl,
    v = prefix ++ ds ++ tl /\
    (prefix = [43; 55]%N \/ prefix = [56]%N) /\
    length ds = 10 /\ forallb is_decimal_digit ds = true /\
    (tl = [] \/ tl = [10%N]).
Proof.
  split.
  - intros H. unfold validate_phone in H.
    destruct v as [|c r]; [discriminate|].
    destruct c as [|p]; [discriminate|].
    do 6 (destruct p as [p|p|]; try discriminate).
    + destruct r as [|c' r]; [discriminate|].
      destruct c' as [|p]; [discriminate|].
      do 6 (destruct p as [p|p|]; try discriminate).
      apply digits_then_end_spec in H as (ds & tl & -> & H').
      exists [43; 55]%N, ds, tl. tauto.
    + apply digits_then_end_spec in H as (ds & tl & -> & H').
      exists [56%N], ds, tl. tauto.
  - intros (prefix & ds & tl & -> & [-> | ->] & H');
      cbn [app validate_phone];
      apply (proj2 (digits_then_end_spec 10 (ds ++ tl)));
      exists ds, tl; tauto.
Qed.

End PhoneFormat.




(** Whatever table stands behind [\d], a number that starts with [+1] is
    refused. *)
Lemma plus_one_refused (is_decimal_digit : N -> bool)
    (r : Orchestrator.pystr) (call_id : nat)
    (registry : gmap nat Orchestrator.CallSession) :
  Orchestrator.createCall is_decimal_digit (43%N :: 49%N :: r) call_id
    registry = (registry, inl Orchestrator.InvalidArgument).
Proof. reflexivity. Qed.

(** Two calls created one after the other under different generated ids
    are both registered. *)
Lemma createCall_distinct_ids (is_decimal_digit : N -> bool)
    (p1 p2 : Orchestrator.pystr) (i1 i2 : nat)
    (registry r1 r2 : gmap nat Orchestrator.CallSession)
    (s1 s2 : Orchestrator.CallSession) :
  i1 <> i2 ->
  Orchestrator.createCall is_decimal_digit p1 i1 registry = (r1, inr s1) ->
  Orchestrator.createCall is_decimal_digit p2 i2 r1 = (r2, inr s2) ->
  Orchestrator.id s1 <> Orchestrator.id s2 /\
  r2 !! Orchestrator.id s1 = Some s1 /\
  r2 !! Orchestrator.id s2 = Some s2.
Proof.
  unfold Orchestrator.createCall. intros Hne.
  destruct (Orchestrator.validate_phone is_decimal_digit p1); [|discriminate].
  destruct (Orchestrator.validate_phone is_decimal_digit p2); [|discriminate].
  intros [= <- <-] [= <- <-]. cbn [Orchestrator.id].
  split; [exact Hne|]. split.
  - rewrite lookup_insert_ne by auto. apply lookup_insert_eq.
  - apply lookup_insert_eq.
Qed.

(** [createCall] does not look whether the generated id is in use: under
    an id that is, the session that was registered is replaced. *)
Example createCall_id_in_use :
  fst (Orchestrator.createCall Orchestrator.ascii_digit phone_8 1
         one_session) !! 1 =
  Some (Orchestrator.mkSession 1 phone_plus7 Orchestrator.Created
          None None None []) /\
  size (fst (Orchestrator.createCall Orchestrator.ascii_digit phone_8 1
               one_session)) = 1.
Proof. vm_compute. split; reflexivity. Qed.

Example phone_plus7_valid :
  Orchestrator.validate_phone Orchestrator.ascii_digit phone_plus7 = true.
Proof. vm_compute. reflexivity. Qed.

Example phone_8_valid :
  Orchestrator.validate_phone Orchestrator.ascii_digit phone_8 = true.
Proof. vm_compute. reflexivity. Qed.

Example phone_final_newline_valid :
  Orchestrator.validate_phone Orchestrator.ascii_digit
    (phone_plus7 ++ [10%N]) = true.
Proof. vm_compute. reflexivity. Qed.

Example phone_without_prefix_invalid :
  Orchestrator.validate_phone Orchestrator.ascii_digit
    [55; 57; 48; 49; 57; 52; 51; 51; 53; 52; 54]%N = false.
Proof. vm_compute. reflexivity. Qed.

Example phone_too_long_invalid :
  Orchestrator.validate_phone Orchestrator.ascii_digit
    (phone_plus7 ++ [48%N]) = false.
Proof. vm_compute. reflexivity. Qed.

(** ** More on the engine *)

Lemma speak_prompts (text : jsstring) (h : bool) (s : engine) :
  systemPrompt (speak text h s) = systemPrompt s /\
  greetingMessage (speak text h s) = greetingMessage s.
Proof.
  destruct s as [mt gm sp asr cnt proc lis spk pl clk tr].
  now destruct asr, proc, lis.
Qed.

Lemma once_prompts (h : bool) (s : engine) :
  systemPrompt (once h s) = systemPrompt s /\
  greetingMessage (once h s) = greetingMessage s.
Proof.
  destruct s as [mt gm sp asr cnt proc lis spk pl clk tr].
  now destruct h, asr, lis.
Qed.

(** Only the greeting reply writes [systemPrompt]. *)
Lemma step_keeps_prompt (s : engine) (ev : event) :
  is_greeting_response ev = false ->
  systemPrompt (step s ev) = systemPrompt s.
Proof.
  intros Hev. destruct ev as [ms|g p| |text| |r]; try discriminate.
  - reflexivity.
  - simpl. unfold onCaptureStarted. now destruct (isSpeaking s).
  - simpl. unfold onASRResult. destruct (isProcessing s); [reflexivity|].
    destruct (blank text).
    { now destruct (speak_prompts REPROMPT_LINE false
                      (set_isListening false (emit StopMediaTo s))) as [-> _]. }
    destruct text as [t|]; [|reflexivity].
    unfold onRecognitionResult. project.
    destruct (MAX_TURNS s <? S (dialogTurnCount s)); [|reflexivity].
    match goal with
    | |- systemPrompt (speak _ _ ?st) = _ =>
        now destruct (speak_prompts CLOSING_LINE true st) as [-> _]
    end.
  - simpl. apply onPlaybackFinished_ind; [|reflexivity].
    intros h st IH. now destruct (once_prompts h st) as [-> _].
  - destruct (outcome_cases r s) as (text & h & ->).
    now destruct (speak_prompts text h s) as [-> _].
Qed.

Lemma run_keeps_prompt (evs : list event) (s : engine) :
  forallb (fun ev => negb (is_greeting_response ev)) evs = true ->
  systemPrompt (run s evs) = systemPrompt s.
Proof.
  revert s. induction evs as [|ev evs IH]; simpl; intros s Hq;
    [reflexivity|].
  apply andb_true_iff in Hq as [Hev Hq]. apply negb_true_iff in Hev.
  rewrite IH by exact Hq. now apply step_keeps_prompt.
Qed.

Lemma greeting_sets_prompt (g p : option jsstring) (s : engine) :
  systemPrompt (step s (GreetingResponse g p)) =
  Startup.or_else p (systemPrompt s).
Proof.
  change (step s (GreetingResponse g p)) with (onGreetingResponse g p s).
  unfold onGreetingResponse, Startup.or_else. cbv zeta.
  match goal with
  | |- systemPrompt (speak ?t ?h ?st) = _ =>
      destruct (speak_prompts t h st) as [-> _]
  end.
  unfold saveAIMessage. project.
  now destruct (truthy g), (truthy p).
Qed.

(** X3. The prompt of the last greeting reply is the prompt of every
    later generation request: after a greeting reply with prompt [p], and
    whatever happens next short of another greeting reply, an accepted
    transcript within the turn limit is sent with [p] when [p] is a
    non-empty string, with the prompt the scenario had before when it is
    not, and with no prompt field when that one is empty. *)
Theorem prompt_follows_greeting (s0 : engine) (g p : option jsstring)
    (evs : list event) (t : jsstring) :
  forallb (fun ev => negb (is_greeting_response ev)) evs = true ->
  let s := run (step s0 (GreetingResponse g p)) evs in
  isProcessing s = false ->
  blank (Some t) = false ->
  dialogTurnCount s < MAX_TURNS s ->
  trace (step s (Result (Some t))) =
  trace s ++ [StopMediaTo;
              ProcessText t (prompt_of (Startup.or_else p (systemPrompt s0)))].
Proof.
  intros Hevs s Hp Hb Hlt.
  destruct (result_generate t s Hp Hb Hlt) as (Ht & _).
  rewrite Ht. unfold prompt_field, prompt_of. subst s.
  now rewrite run_keeps_prompt, greeting_sets_prompt.
Qed.

Lemma prompt_follows_greeting_witness :
  trace (step (run (step (answered 12 0%N)
                      (GreetingResponse None (Some [104; 105]%N)))
                 [PlaybackFinished])
           (Result (Some [1076; 1072]%N))) =
  trace (run (step (answered 12 0%N)
                (GreetingResponse None (Some [104; 105]%N)))
           [PlaybackFinished]) ++
  [StopMediaTo; ProcessText [1076; 1072]%N (Some [104; 105]%N)].
Proof.
  assert (H1 : forallb (fun ev => negb (is_greeting_response ev))
                 [PlaybackFinished] = true) by (vm_compute; reflexivity).
  assert (H2 : isProcessing
                 (run (step (answered 12 0%N)
                         (GreetingResponse None (Some [104; 105]%N)))
                    [PlaybackFinished]) = false)
    by (vm_compute; reflexivity).
  assert (H3 : blank (Some [1076; 1072]%N) = false)
    by (vm_compute; reflexivity).
  assert (H4 : dialogTurnCount
                 (run (step (answered 12 0%N)
                         (GreetingResponse None (Some [104; 105]%N)))
                    [PlaybackFinished]) <
               MAX_TURNS
                 (run (step (answered 12 0%N)
                         (GreetingResponse None (Some [104; 105]%N)))
                    [PlaybackFinished]))
    by (vm_compute; lia).
  exact (prompt_follows_greeting (answered 12 0%N) None (Some [104; 105]%N)
           [PlaybackFinished] [1076; 1072]%N H1 H2 H3 H4).
Defined.

(** The user turns handed to the backend are the turns counted, up to the
    limit. *)
Lemma turn_count_step (s : engine) (ev : event) :
  generation_requests (trace s) =
    Nat.min (dialogTurnCount s) (MAX_TURNS s) ->
  generation_requests (trace (step s ev)) =
    Nat.min (dialogTurnCount (step s ev)) (MAX_TURNS (step s ev)).
Proof.
  intros H.
  destruct (step_counts s ev) as (l & -> & -> & [[-> Hg]|Hturn]).
  - rewrite generation_requests_app, Hg. lia.
  - destruct Hturn as (t & _ & _ & _ & -> & Hg).
    rewrite generation_requests_app, Hg.
    destruct (Nat.ltb_spec (dialogTurnCount s) (MAX_TURNS s)); lia.
Qed.

(** X4. In every reachable state of an answered call, the number of
    generation requests sent so far is the smaller of [dialogTurnCount]
    and the turn limit: every counted turn up to the limit was sent to the
    backend, and none beyond it. *)
Theorem requests_are_counted_turns (maxTurns : nat) (t0 : N) (s : engine) :
  reachable maxTurns t0 s ->
  generation_requests (trace s) = Nat.min (dialogTurnCount s) maxTurns.
Proof.
  intros [evs ->].
  assert (H : generation_requests (trace (run (answered maxTurns t0) evs)) =
              Nat.min (dialogTurnCount (run (answered maxTurns t0) evs))
                (MAX_TURNS (run (answered maxTurns t0) evs))).
  { induction evs as [|ev evs IH] using rev_ind.
    - reflexivity.
    - rewrite run_snoc. now apply turn_count_step. }
  now rewrite max_turns_run in H.
Qed.

Lemma requests_are_counted_turns_witness :
  generation_requests (trace (step two_turns_done
                                (Result (Some [1076; 1072]%N)))) =
  Nat.min (dialogTurnCount (step two_turns_done
                              (Result (Some [1076; 1072]%N)))) 2.
Proof.
  apply (requests_are_counted_turns 2 0%N).
  exists ([GreetingResponse None None; PlaybackFinished] ++
          (exchange ++ exchange) ++ [Result (Some [1076; 1072]%N)]).
  vm_compute. reflexivity.
Defined.

(** What the listeners leave behind, listener by listener. *)
Lemma fold_once_flags (hs : list bool) (s : engine) :
  hs <> [] ->
  let s' := fold_left (fun st h => once h st) hs s in
  isSpeaking s' = false /\ isProcessing s' = false.
Proof.
  revert s. induction hs as [|h hs IH]; [congruence|].
  intros s _. simpl. destruct hs as [|h' hs].
  - simpl. now destruct (once_fields h s) as (_ & _ & _ & -> & _ & -> & _).
  - apply IH. discriminate.
Qed.

Lemma fold_once_listening (hs : list bool) (s : engine) :
  isListening s = true ->
  isListening (fold_left (fun st h => once h st) hs s) = true.
Proof.
  revert s. induction hs as [|h hs IH]; simpl; intros s Hl; [exact Hl|].
  apply IH. destruct (once_fields h s) as (_ & _ & _ & _ & -> & _).
  now rewrite Hl.
Qed.


Lemma fold_once_restarts (hs : list bool) (s : engine) :
  In false hs -> currentASR s = true ->
  isListening (fold_left (fun st h => once h st) hs s) = true.
Proof.
  revert s. induction hs as [|h hs IH]; simpl; intros s Hin Hasr; [easy|].
  destruct Hin as [->|Hin].
  - apply fold_once_listening.
    destruct (once_fields false s) as (_ & _ & _ & _ & -> & _).
    rewrite Hasr. apply orb_true_r.
  - apply IH; [exact Hin|].
    now destruct (once_fields h s) as (_ & -> & _).
Qed.

(** X5. When playback finishes with at least one [speak] listener
    registered, every listener is removed and [isSpeaking] and
    [isProcessing] are cleared; and if one of them was registered without
    [hangupAfter] and the ASR exists, the engine is listening afterwards;
    the one-capture invariant is kept. *)
Theorem playback_finished (s : engine) :
  playbackListeners s <> [] ->
  let s' := step s PlaybackFinished in
  playbackListeners s' = [] /\
  isSpeaking s' = false /\
  isProcessing s' = false /\
  (In false (playbackListeners s) -> currentASR s = true ->
   isListening s' = true) /\
  (capture_inv s -> capture_inv s').
Proof.
  intros Hne s'. subst s'.
  change (step s PlaybackFinished) with (onPlaybackFinished s).
  split; [apply onPlaybackFinished_listeners|].
  destruct (fold_once_flags (playbackListeners s) s Hne) as [Hs Hp].
  split; [exact Hs|]. split; [exact Hp|]. split.
  - intros Hin Hasr. now apply fold_once_restarts.
  - apply (capture_inv_step s PlaybackFinished).
Qed.

Lemma playback_finished_witness :
  isListening greeting_playing = true /\
  isSpeaking (step greeting_playing PlaybackFinished) = false /\
  playbackListeners (step greeting_playing PlaybackFinished) = [].
Proof.
  split; [vm_compute; reflexivity|].
  assert (Hne : playbackListeners greeting_playing <> [])
    by (vm_compute; discriminate).
  destruct (playback_finished greeting_playing Hne) as (Hl & Hs & _).
  split; [exact Hs|exact Hl].
Defined.

(** While [isProcessing] is set and no capture is open, an event other
    than the end of a playback or the start of a capture leaves it so. *)
Lemma capture_stays_closed (s : engine) (ev : event) :
  awaits_playback ev = true ->
  isProcessing s = true -> isListening s = false ->
  active_captures (trace s) = 0 ->
  isProcessing (step s ev) = true /\ isListening (step s ev) = false /\
  active_captures (trace (step s ev)) = 0.
Proof.
  intros Hev Hp Hl Hc.
  assert (Hspeak : forall text h st,
            isProcessing st = true -> isListening st = false ->
            active_captures (trace st) = 0 ->
            isProcessing (speak text h st) = true /\
            isListening (speak text h st) = false /\
            active_captures (trace (speak text h st)) = 0).
  { intros text h st Hp' Hl' Hc'.
    destruct (speak_fields text h st) as (_ & _ & _ & -> & -> & _).
    assert (Hno : can_listen st = false).
    { unfold can_listen. rewrite Hp'. now rewrite andb_false_r. }
    rewrite speak_trace, active_captures_app, Hno, Hl', Hc'.
    repeat split; auto. }
  destruct ev as [ms|g p| |text| |r]; try discriminate.
  - simpl. auto.
  - destruct (greeting_cases g p s) as
      (text & s0 & -> & _ & _ & _ & Hp0 & Hl0 & _ & _ & _ & Ht0).
    apply Hspeak; cbn [isProcessing isListening trace emit]; try congruence.
    rewrite Ht0, active_captures_app, Hc. reflexivity.
  - rewrite result_discarded by exact Hp. auto.
  - destruct (outcome_cases r s) as (text & h & ->). now apply Hspeak.
Qed.

(** X6. From the moment a non-blank transcript is accepted until the next
    playback-finished or capture-started event, no capture is open:
    [isProcessing] stays set and [isListening] clear whatever backend
    outcomes, greeting replies, further recognition results and clock
    ticks arrive in between, because [speak] calls [startListening] and
    that returns at its [isProcessing] guard. (A playback-finished event
    ends this, also when it belongs to an utterance that began before the
    transcript was accepted.) *)
Theorem capture_closed_until_playback (s : engine) (t : jsstring)
    (evs : list event) :
  isProcessing s = false ->
  blank (Some t) = false ->
  forallb awaits_playback evs = true ->
  let s' := run (step s (Result (Some t))) evs in
  isProcessing s' = true /\ isListening s' = false /\
  active_captures (trace s') = 0.
Proof.
  intros Hp Hb Hevs s'. subst s'.
  assert (H0 : isProcessing (step s (Result (Some t))) = true /\
               isListening (step s (Result (Some t))) = false /\
               active_captures (trace (step s (Result (Some t)))) = 0).
  { destruct (Nat.lt_ge_cases (dialogTurnCount s) (MAX_TURNS s)) as [Hlt|Hge].
    - destruct (result_generate t s Hp Hb Hlt) as (Ht & Hl & Hp1 & _).
      rewrite Ht, active_captures_app. auto.
    - destruct (result_limit t s Hp Hb Hge) as (Ht & Hl & Hp1 & _).
      rewrite Ht, active_captures_app. auto. }
  revert H0. generalize (step s (Result (Some t))) as s1.
  induction evs as [|ev evs IH]; intros s1 H1; [exact H1|].
  simpl in Hevs. apply andb_true_iff in Hevs as [Hev Hevs].
  destruct H1 as (H1 & H2 & H3).
  apply (IH Hevs (step s1 ev)).
  now apply capture_stays_closed.
Qed.

Lemma capture_closed_until_playback_witness :
  active_captures
    (trace (run (listening 12)
              [Result (Some [1076; 1072]%N); Tick 500;
               Result (Some [1072; 1083; 1083; 1086]%N);
               BackendOutcome (Resolved 200 (Some [104; 105]%N))])) = 0.
Proof.
  assert (Hp : isProcessing (listening 12) = false)
    by (vm_compute; reflexivity).
  assert (Hb : blank (Some [1076; 1072]%N) = false)
    by (vm_compute; reflexivity).
  assert (Hevs : forallb awaits_playback
                   [Tick 500; Result (Some [1072; 1083; 1083; 1086]%N);
                    BackendOutcome (Resolved 200 (Some [104; 105]%N))] = true)
    by (vm_compute; reflexivity).
  destruct (capture_closed_until_playback (listening 12) [1076; 1072]%N
              _ Hp Hb Hevs) as (_ & _ & H).
  exact H.
Defined.

(** The re-prompt is playing when the transcript is accepted: when the
    re-prompt ends, its listener clears [isProcessing] and opens the
    capture, while the reply is still awaited. *)
Example capture_reopened_by_earlier_playback :
  isProcessing answered_over_reprompt = true /\
  active_captures (trace answered_over_reprompt) = 0 /\
  isProcessing (step answered_over_reprompt PlaybackFinished) = false /\
  active_captures (trace (step answered_over_reprompt PlaybackFinished)) = 1.
Proof. vm_compute. repeat split. Qed.





(** ** The start of the scenario *)

Lemma is_prefix_app (p s : jsstring) : Startup.is_prefix p (p ++ s) = true.
Proof.
  induction p as [|a p IH]; simpl; [reflexivity|].
  now rewrite N.eqb_refl, IH.
Qed.

(** A pattern that first occurs at the very end is cut off. *)
Lemma remove_first_suffix (pat base : jsstring) :
  Startup.occurs_within (length base) pat (base ++ pat) = false ->
  Startup.remove_first pat (base ++ pat) = base.
Proof.
  induction base as [|c base IH]; intros H.
  - simpl app. destruct pat as [|a pat]; [reflexivity|].
    cbn [Startup.remove_first].
    assert (Hp : Startup.is_prefix (a :: pat) (a :: pat) = true).
    { pose proof (is_prefix_app (a :: pat) []) as Hp.
      now rewrite app_nil_r in Hp. }
    rewrite Hp. apply drop_all.
  - cbn [length Startup.occurs_within app] in H.
    apply orb_false_iff in H as [Hp Hrest].
    cbn [app Startup.remove_first]. rewrite Hp.
    now rewrite (IH Hrest).
Qed.

(** A string the pattern does not occur in is left as it is. *)
Lemma remove_first_absent (pat s : jsstring) :
  Startup.occurs_within (S (length s)) pat s = false ->
  Startup.remove_first pat s = s.
Proof.
  induction s as [|c s IH]; intros H.
  - cbn [length Startup.occurs_within] in H.
    apply orb_false_iff in H as [Hp _].
    cbn [Startup.remove_first]. now rewrite Hp.
  - cbn [length Startup.occurs_within] in H.
    apply orb_false_iff in H as [Hp Hrest].
    cbn [Startup.remove_first]. rewrite Hp. now rewrite (IH Hrest).
Qed.

Lemma truthy_app_events (base : jsstring) :
  truthy (Some (base ++ Startup.EVENTS_PATH)) = true.
Proof. now destruct base. Qed.

Lemma started_urls (custom : option Startup.customData)
    (stamp rnd : jsstring) (now : N) :
  let g := fst (Startup.onStarted custom stamp rnd now) in
  Startup.backendUrl g =
    match custom with
    | Some d =>
        if truthy (Startup.webhook_url d)
        then Startup.remove_first Startup.EVENTS_PATH
               (default [] (Startup.webhook_url d))
        else Startup.DEFAULT_BACKEND
    | None => Startup.DEFAULT_BACKEND
    end /\
  Startup.webhookUrl g = Startup.backendUrl g ++ Startup.EVENTS_PATH.
Proof.
  unfold Startup.onStarted. destruct custom as [d|].
  - unfold Startup.applyCustomData. cbv zeta.
    destruct (truthy (Some (Startup.callId _))); split; reflexivity.
  - split; reflexivity.
Qed.

(** X8. The webhook URL survives the start of the scenario: when the
    custom data give a [webhook_url] that ends in "/voximplant/events" and
    has the path nowhere earlier, the handler takes the part before the
    path as [backendUrl] and sends its webhooks to the very URL it was
    given; a non-empty [webhook_url] without the path becomes the backend
    URL itself and gets the path appended; with no [webhook_url] (or no
    custom data at all) the declared URLs stay. *)
Theorem webhook_url_round_trip :
  (forall d stamp rnd now base,
     Startup.webhook_url d = Some (base ++ Startup.EVENTS_PATH) ->
     Startup.occurs_within (length base) Startup.EVENTS_PATH
       (base ++ Startup.EVENTS_PATH) = false ->
     let g := fst (Startup.onStarted (Some d) stamp rnd now) in
     Startup.backendUrl g = base /\
     Startup.webhookUrl g = base ++ Startup.EVENTS_PATH) /\
  (forall d stamp rnd now url,
     Startup.webhook_url d = Some url -> truthy (Some url) = true ->
     Startup.occurs_within (S (length url)) Startup.EVENTS_PATH url = false ->
     let g := fst (Startup.onStarted (Some d) stamp rnd now) in
     Startup.backendUrl g = url /\
     Startup.webhookUrl g = url ++ Startup.EVENTS_PATH) /\
  (forall custom stamp rnd now,
     truthy (custom ≫= Startup.webhook_url) = false ->
     let g := fst (Startup.onStarted custom stamp rnd now) in
     Startup.backendUrl g = Startup.DEFAULT_BACKEND /\
     Startup.webhookUrl g =
       Startup.DEFAULT_BACKEND ++ Startup.EVENTS_PATH).
Proof.
  split; [|split].
  - intros d stamp rnd now base Hu Hocc g.
    destruct (started_urls (Some d) stamp rnd now) as [Hb Hw].
    fold g in Hb, Hw. rewrite Hw, Hb, Hu, truthy_app_events.
    cbn [from_option id]. now rewrite (remove_first_suffix _ _ Hocc).
  - intros d stamp rnd now url Hu Ht Hocc g.
    destruct (started_urls (Some d) stamp rnd now) as [Hb Hw].
    fold g in Hb, Hw. rewrite Hw, Hb, Hu, Ht.
    cbn [from_option id]. now rewrite (remove_first_absent _ _ Hocc).
  - intros custom stamp rnd now Ht g.
    destruct (started_urls custom stamp rnd now) as [Hb Hw].
    fold g in Hb, Hw. rewrite Hw, Hb.
    destruct custom as [d|]; [|now split].
    cbn in Ht. rewrite Ht. now split.
Qed.

Lemma webhook_url_round_trip_witness :
  Startup.webhookUrl
    (fst (Startup.onStarted
            (Some (Startup.mkCustomData None
                     (Some (x_io ++ Startup.EVENTS_PATH)) None None None))
            [49%N] [97%N] 0%N)) = x_io ++ Startup.EVENTS_PATH.
Proof.
  destruct webhook_url_round_trip as (H & _).
  destruct (H (Startup.mkCustomData None
                 (Some (x_io ++ Startup.EVENTS_PATH)) None None None)
              [49%N] [97%N] 0%N x_io) as [_ Hw].
  - reflexivity.
  - vm_compute. reflexivity.
  - exact Hw.
Defined.

(** The path is followed by "/v2": it is taken out of the middle and put
    at the end, and the webhooks go to another URL than the one given. *)
Example webhook_url_path_inside :
  Startup.webhookUrl
    (fst (Startup.onStarted
            (Some (Startup.mkCustomData None
                     (Some (x_io ++ Startup.EVENTS_PATH ++ [47; 118; 50]%N))
                     None None None))
            [49%N] [97%N] 0%N)) =
  x_io ++ [47; 118; 50]%N ++ Startup.EVENTS_PATH.
Proof. vm_compute. reflexivity. Qed.

(** X9. The scenario never starts without a call id: the id is the
    [call_id] of the custom data when that is a non-empty string and the
    generated ["call_..."] id otherwise; the handler sends one
    [ScenarioStarted] webhook carrying it to the webhook URL and dials the
    [phone] of the custom data, or the test number when there is none. *)
Theorem started_call_id (custom : option Startup.customData)
    (stamp rnd : jsstring) (now : N) :
  let (g, effects) := Startup.onStarted custom stamp rnd now in
  Startup.callId g =
    first_truthy [custom ≫= Startup.call_id]
      (Startup.generatedCallId stamp rnd) /\
  Startup.callId g <> [] /\
  Startup.targetPhone g =
    first_truthy [custom ≫= Startup.phone] Startup.DEFAULT_PHONE /\
  effects =
    [Startup.SendWebhook (Startup.webhookUrl g) ScenarioStarted
       (Startup.callId g) now;
     Startup.CallPSTN (Startup.targetPhone g) Startup.CALLER_ID].
Proof.
  unfold Startup.onStarted. destruct custom as [d|].
  - unfold Startup.applyCustomData. cbn [mbind option_bind first_truthy].
    unfold Startup.or_else.
    destruct (Startup.call_id d) as [[|c r]|]; cbn;
      destruct (Startup.phone d) as [[|c' r']|]; cbn; repeat split;
      discriminate.
  - cbn. repeat split. discriminate.
Qed.

Lemma started_texts (custom : option Startup.customData)
    (stamp rnd : jsstring) (now : N) :
  let g := fst (Startup.onStarted custom stamp rnd now) in
  Startup.greetingMessage g =
    first_truthy [custom ≫= Startup.greeting] DEFAULT_GREETING /\
  Startup.systemPrompt g = first_truthy [custom ≫= Startup.prompt] [].
Proof.
  unfold Startup.onStarted. destruct custom as [d|].
  - unfold Startup.applyCustomData. cbv zeta.
    destruct (truthy (Some (Startup.callId _))); split; reflexivity.
  - split; reflexivity.
Qed.

(** X10. Which greeting the callee hears, and which prompt the backend
    gets: the greeting reply's value when it is a non-empty string, else
    the custom data's, else the declared one. The greeting saved to the
    history is the greeting spoken, and the capture opens with it. *)
Theorem greeting_priority (custom : option Startup.customData)
    (stamp rnd : jsstring) (now t0 : N) (g p : option jsstring) :
  let globals := fst (Startup.onStarted custom stamp rnd now) in
  let s := run (onCallConnected (Startup.engine_of globals t0))
             [GreetingResponse g p] in
  let text := first_truthy [g; custom ≫= Startup.greeting]
                DEFAULT_GREETING in
  trace s = [Webhook CallConnected t0; CreateASR; GetGreeting;
             SaveAIMessage text; Say text; SendMediaTo] /\
  prompt_field s =
    prompt_of (first_truthy [p; custom ≫= Startup.prompt] []).
Proof.
  cbv zeta.
  destruct (started_texts custom stamp rnd now) as [Hg Hp].
  change (first_truthy [g; custom ≫= Startup.greeting] DEFAULT_GREETING)
    with (if truthy g then default [] g
          else first_truthy [custom ≫= Startup.greeting] DEFAULT_GREETING).
  change (first_truthy [p; custom ≫= Startup.prompt] [])
    with (if truthy p then default [] p
          else first_truthy [custom ≫= Startup.prompt] []).
  cbv zeta in Hg, Hp. rewrite <- Hg, <- Hp.
  generalize (fst (Startup.onStarted custom stamp rnd now)) as gl.
  intros [cid bu wu gm sp tp]. unfold Startup.engine_of.
  cbn [Startup.greetingMessage Startup.systemPrompt].
  unfold run, onCallConnected, sendWebhook, initASR. cbn [fold_left step].
  unfold onGreetingResponse, saveAIMessage, prompt_field, prompt_of.
  destruct (truthy g), (truthy p); split; reflexivity.
Qed.

(** ** The bridge's endpoints *)

Lemma storeCall_lookup (b : Bridge.bridge) (callId : jsstring) (h : nat) :
  Bridge.activeCalls (Bridge.storeCall callId h b) !! callId =
  Some (Bridge.mkCallData (Some h)
          (Bridge.activeCalls b !! callId ≫= Bridge.ws)).
Proof.
  unfold Bridge.storeCall. cbn [Bridge.activeCalls Bridge.set_activeCalls].
  unfold jsstring in *. rewrite lookup_alter_eq.
  match goal with
  | |- context [match ?x with Some _ => _ | None => _ end] =>
      destruct x as [d|] eqn:Hd
  end.
  - now rewrite Hd.
  - now rewrite lookup_insert_eq.
Qed.

Lemma storeCall_other (b : Bridge.bridge) (callId other : jsstring)
    (h : nat) :
  other <> callId ->
  Bridge.activeCalls (Bridge.storeCall callId h b) !! other =
  Bridge.activeCalls b !! other.
Proof.
  intros Hne. unfold Bridge.storeCall.
  cbn [Bridge.activeCalls Bridge.set_activeCalls].
  unfold jsstring in *. rewrite lookup_alter_ne by congruence.
  match goal with
  | |- context [match ?x with Some _ => _ | None => _ end] => destruct x
  end; [reflexivity|].
  now rewrite lookup_insert_ne by congruence.
Qed.

Lemma storeCall_effects (b : Bridge.bridge) (callId : jsstring) (h : nat) :
  Bridge.effects (Bridge.storeCall callId h b) = Bridge.effects b.
Proof. reflexivity. Qed.

(** What [cleanup] does to an entry that is there. *)
Lemma cleanup_present (b : Bridge.bridge) (callId : jsstring)
    (d : Bridge.callData) :
  Bridge.activeCalls b !! callId = Some d ->
  Bridge.effects (Bridge.cleanup callId b) =
    Bridge.effects b ++ Bridge.LogCleanup callId ::
      match Bridge.ws d with
      | Some w => Bridge.WsClose (Bridge.ws_id w) ::
                  (if Bridge.close_throws w then [Bridge.LogCloseError]
                   else [])
      | None => []
      end.
Proof.
  intros Hd. unfold Bridge.cleanup.
  cbn [Bridge.activeCalls Bridge.emit]. unfold jsstring in *. rewrite Hd.
  destruct (Bridge.ws d) as [w|]; [|reflexivity].
  destruct (Bridge.close_throws w); cbn; now rewrite <- !app_assoc.
Qed.

(** [/disconnect] for a registered call. *)
Lemma disconnect_present (b : Bridge.bridge) (c : N) (r : jsstring)
    (h : nat) (w : option Bridge.websocket) :
  Bridge.activeCalls b !! (c :: r) = Some (Bridge.mkCallData (Some h) w) ->
  Bridge.disconnect (Some (c :: r)) b =
  (Bridge.cleanup (c :: r) (Bridge.emit (Bridge.CallHangup h) b),
   Bridge.Disconnected200 (c :: r)).
Proof.
  intros H. unfold Bridge.disconnect. unfold jsstring in *. now rewrite H.
Qed.

(** X11. Connect, then disconnect: a [/connect] with a non-empty call id
    registers the SDK call under it (keeping a socket already stored) and
    answers "connecting"; a [/disconnect] for the same id then hangs up
    exactly that call, runs [cleanup] (closing the socket, and logging
    when closing throws), answers "disconnected", and leaves the registry
    as it was without the id; other ids are never touched. *)
Theorem connect_then_disconnect (b : Bridge.bridge) (c : N) (r : jsstring)
    (h : nat) :
  let id := c :: r in
  let b1 := fst (BridgeApi.connect (Some id) (Some h) b) in
  let b2 := fst (Bridge.disconnect (Some id) b1) in
  snd (BridgeApi.connect (Some id) (Some h) b) = BridgeApi.Connecting200 id /\
  Bridge.activeCalls b1 !! id =
    Some (Bridge.mkCallData (Some h)
            (Bridge.activeCalls b !! id ≫= Bridge.ws)) /\
  snd (Bridge.disconnect (Some id) b1) = Bridge.Disconnected200 id /\
  Bridge.effects b2 =
    Bridge.effects b ++ Bridge.CallHangup h :: Bridge.LogCleanup id ::
      match Bridge.activeCalls b !! id ≫= Bridge.ws with
      | Some w => Bridge.WsClose (Bridge.ws_id w) ::
                  (if Bridge.close_throws w then [Bridge.LogCloseError]
                   else [])
      | None => []
      end /\
  Bridge.activeCalls b2 = delete id (Bridge.activeCalls b).
Proof.
  intros id b1 b2. subst b1 b2 id. cbn [BridgeApi.connect fst snd].
  split; [reflexivity|].
  pose proof (storeCall_lookup b (c :: r) h) as Hl.
  split; [exact Hl|].
  rewrite (disconnect_present _ _ _ _ _ Hl). cbn [fst snd].
  split; [reflexivity|]. split.
  - rewrite (cleanup_present _ (c :: r)
               (Bridge.mkCallData (Some h)
                  (Bridge.activeCalls b !! (c :: r) ≫= Bridge.ws))).
    + cbn [Bridge.effects Bridge.emit Bridge.ws].
      rewrite storeCall_effects. now rewrite <- app_assoc.
    + exact Hl.
  - rewrite cleanup_registry. cbn [Bridge.activeCalls Bridge.emit].
    apply map_eq. intros k. destruct (decide (k = c :: r)) as [->|Hne].
    + now rewrite !lookup_delete_eq.
    + rewrite !lookup_delete_ne by congruence.
      now apply storeCall_other.
Qed.

Example connect_then_disconnect_run :
  Bridge.effects
    (fst (Bridge.disconnect (Some c1)
            (Bridge.storeWs c1 (Bridge.mkWs 3 true)
               (fst (BridgeApi.connect (Some c1) (Some 7) no_calls))))) =
  [Bridge.CallHangup 7; Bridge.LogCleanup c1; Bridge.WsClose 3;
   Bridge.LogCloseError].
Proof. vm_compute. reflexivity. Qed.

(** X12. A socket that opens for a call that is not (or no longer)
    registered is not stored: [connectToBackend]'s store leaves the bridge
    as it is, so no later [cleanup] or [/disconnect] closes that
    socket. *)
Theorem late_socket_is_dropped (b : Bridge.bridge) (callId : jsstring)
    (w : Bridge.websocket) :
  Bridge.activeCalls b !! callId = None ->
  Bridge.storeWs callId w b = b /\
  Bridge.cleanup callId (Bridge.storeWs callId w b) =
    Bridge.emit (Bridge.LogCleanup callId) b /\
  fst (Bridge.disconnect (Some callId) (Bridge.storeWs callId w b)) = b.
Proof.
  intros Hn.
  assert (Hs : Bridge.storeWs callId w b = b).
  { unfold Bridge.storeWs, Bridge.set_activeCalls. destruct b as [m e].
    cbn [Bridge.activeCalls Bridge.effects] in *. f_equal.
    apply map_eq. intros k. unfold jsstring in *.
    destruct (decide (k = callId)) as [->|Hne].
    - now rewrite lookup_alter_eq, Hn.
    - now rewrite lookup_alter_ne by congruence. }
  rewrite Hs. split; [reflexivity|]. split.
  - now apply cleanup_absent.
  - now rewrite disconnect_absent.
Qed.

Lemma late_socket_is_dropped_witness :
  Bridge.storeWs c1 (Bridge.mkWs 3 false) (Bridge.cleanup c1 one_call) =
  Bridge.cleanup c1 one_call.
Proof.
  assert (Hn : Bridge.activeCalls (Bridge.cleanup c1 one_call) !! c1 = None)
    by (vm_compute; reflexivity).
  destruct (late_socket_is_dropped (Bridge.cleanup c1 one_call) c1
              (Bridge.mkWs 3 false) Hn) as [H _].
  exact H.
Defined.

Lemma size_alter_calls (f : Bridge.callData -> Bridge.callData)
    (k : list N) (m : gmap (list N) Bridge.callData) :
  size (alter f k m) = size m.
Proof.
  rewrite <- (size_dom (D := gset (list N)) (alter f k m)).
  rewrite <- (size_dom (D := gset (list N)) m).
  now rewrite dom_alter_L.
Qed.

Lemma storeCall_size (b : Bridge.bridge) (callId : jsstring) (h : nat) :
  size (Bridge.activeCalls (Bridge.storeCall callId h b)) =
  match Bridge.activeCalls b !! callId with
  | Some _ => size (Bridge.activeCalls b)
  | None => S (size (Bridge.activeCalls b))
  end.
Proof.
  unfold Bridge.storeCall. cbn [Bridge.activeCalls Bridge.set_activeCalls].
  unfold jsstring in *. rewrite size_alter_calls.
  match goal with
  | |- context [match ?x with Some _ => _ | None => _ end] =>
      destruct x as [d|] eqn:Hd
  end; [reflexivity|].
  now apply map_size_insert_None.
Qed.

(** X13. The [active_calls] count of [/health]: a connect for an id that
    is not registered raises it by one, a connect for a registered id
    leaves it, a [cleanup] of a registered id lowers it by one, and a
    [cleanup] of any other id leaves it. *)
Theorem health_count (b : Bridge.bridge) (c : N) (r : jsstring) (h : nat) :
  let id := c :: r in
  (Bridge.activeCalls b !! id = None ->
   BridgeApi.health_active_calls
     (fst (BridgeApi.connect (Some id) (Some h) b)) =
   S (BridgeApi.health_active_calls b) /\
   BridgeApi.health_active_calls (Bridge.cleanup id b) =
   BridgeApi.health_active_calls b) /\
  (is_Some (Bridge.activeCalls b !! id) ->
   BridgeApi.health_active_calls
     (fst (BridgeApi.connect (Some id) (Some h) b)) =
   BridgeApi.health_active_calls b /\
   S (BridgeApi.health_active_calls (Bridge.cleanup id b)) =
   BridgeApi.health_active_calls b).
Proof.
  intros id. subst id. unfold BridgeApi.health_active_calls.
  cbn [BridgeApi.connect fst]. rewrite cleanup_registry, storeCall_size.
  unfold jsstring in *. split.
  - intros Hn. rewrite Hn. split; [reflexivity|]. now rewrite delete_id.
  - intros [d Hd]. rewrite Hd. split; [reflexivity|].
    rewrite map_size_delete, Hd.
    assert (Hsz : size (Bridge.activeCalls b) <> 0).
    { apply map_size_ne_0_lookup. eauto. }
    cbn beta iota.
    match goal with
    | |- S (Init.Nat.pred ?n) = ?m =>
        change m with n; destruct n eqn:Hn; [|reflexivity]
    end.
    exfalso. apply Hsz. exact Hn.
Qed.

Lemma health_count_witness :
  BridgeApi.health_active_calls
    (fst (BridgeApi.connect (Some c1) (Some 7) no_calls)) = 1 /\
  BridgeApi.health_active_calls (Bridge.cleanup c1 one_call) = 0.
Proof.
  destruct (health_count no_calls 99%N [49%N] 7) as [Hnew _].
  destruct (health_count one_call 99%N [49%N] 7) as [_ Hold].
  split.
  - destruct Hnew as [H _]; [vm_compute; reflexivity|]. exact H.
  - assert (Hs : is_Some (Bridge.activeCalls one_call !! (99%N :: [49%N])))
      by (vm_compute; eauto).
    destruct (Hold Hs) as [_ H].
    apply eq_add_S. etransitivity; [exact H|]. vm_compute. reflexivity.
Defined.

(** X14. A second [/connect] for an id that is already connected replaces
    the stored SDK call and keeps the stored socket and the number of
    entries. A [/disconnect] then issues one hang-up, of the second call,
    and removes the entry. The first call is hung up when the backend
    socket that was opened for it closes: its listener hangs up the call
    it was given, not the stored one, and removes the entry. *)
Theorem reconnect_replaces_call (b : Bridge.bridge) (c : N) (r : jsstring)
    (h1 h2 : nat) :
  let id := c :: r in
  let b1 := fst (BridgeApi.connect (Some id) (Some h1) b) in
  let b2 := fst (BridgeApi.connect (Some id) (Some h2) b1) in
  let b3 := fst (Bridge.disconnect (Some id) b2) in
  let b4 := Bridge.onCallEvent id (Bridge.BackendClosed (Some h1)) b2 in
  Bridge.activeCalls b2 !! id =
    Some (Bridge.mkCallData (Some h2)
            (Bridge.activeCalls b !! id ≫= Bridge.ws)) /\
  BridgeApi.health_active_calls b2 = BridgeApi.health_active_calls b1 /\
  (exists l, Bridge.effects b3 =
             Bridge.effects b ++ Bridge.CallHangup h2 :: l /\
             forall h, ~ In (Bridge.CallHangup h) l) /\
  Bridge.activeCalls b3 !! id = None /\
  (exists l, Bridge.effects b4 =
             Bridge.effects b ++
             Bridge.LogBackendClosed id :: Bridge.CallHangup h1 :: l /\
             forall h, ~ In (Bridge.CallHangup h) l) /\
  Bridge.activeCalls b4 !! id = None.
Proof.
  intros id b1 b2 b3 b4. subst b4 b3 b2 b1 id. cbn [BridgeApi.connect fst].
  pose proof (storeCall_lookup b (c :: r) h1) as H1.
  pose proof (storeCall_lookup (Bridge.storeCall (c :: r) h1 b) (c :: r) h2)
    as H2.
  unfold jsstring in *. rewrite H1 in H2. cbn [mbind option_bind Bridge.ws] in H2.
  split; [exact H2|]. split.
  { unfold BridgeApi.health_active_calls. rewrite storeCall_size.
    unfold jsstring in *. now rewrite H1. }
  rewrite (disconnect_present _ _ _ _ _ H2). cbn [fst]. split; [|split; [|split]].
  - rewrite (cleanup_present
               (Bridge.emit (Bridge.CallHangup h2)
                  (Bridge.storeCall (c :: r) h2
                     (Bridge.storeCall (c :: r) h1 b)))
               (c :: r) _ H2).
    cbn [Bridge.effects Bridge.emit Bridge.ws].
    rewrite !storeCall_effects, <- app_assoc.
    eexists. split; [reflexivity|].
    intros h.
    match goal with
    | |- context [match ?x with Some _ => _ | None => _ end] =>
        destruct x as [w|]
    end; [destruct (Bridge.close_throws w)|]; simpl;
      intuition discriminate.
  - rewrite cleanup_registry. apply lookup_delete_eq.
  - cbn [Bridge.onCallEvent].
    rewrite (cleanup_present
               (Bridge.emit (Bridge.CallHangup h1)
                  (Bridge.emit (Bridge.LogBackendClosed (c :: r))
                     (Bridge.storeCall (c :: r) h2
                        (Bridge.storeCall (c :: r) h1 b))))
               (c :: r) _ H2).
    cbn [Bridge.effects Bridge.emit Bridge.ws].
    rewrite !storeCall_effects, <- !app_assoc.
    eexists. split; [reflexivity|].
    intros h.
    match goal with
    | |- context [match ?x with Some _ => _ | None => _ end] =>
        destruct x as [w|]
    end; [destruct (Bridge.close_throws w)|]; simpl;
      intuition discriminate.
  - cbn [Bridge.onCallEvent]. rewrite cleanup_registry.
    apply lookup_delete_eq.
Qed.

Example reconnect_replaces_call_run :
  Bridge.effects
    (fst (Bridge.disconnect (Some c1)
            (fst (BridgeApi.connect (Some c1) (Some 8) one_call)))) =
  [Bridge.CallHangup 8; Bridge.LogCleanup c1; Bridge.WsClose 3].
Proof. vm_compute. reflexivity. Qed.

(** The socket of the first call (SDK call 7) closes after the second
    [/connect]: call 7 is hung up, call 8 is dropped from the registry
    without a hang-up. *)
Example first_socket_closes_after_reconnect :
  Bridge.effects
    (Bridge.onCallEvent c1 (Bridge.BackendClosed (Some 7))
       (fst (BridgeApi.connect (Some c1) (Some 8) one_call))) =
  [Bridge.LogBackendClosed c1; Bridge.CallHangup 7; Bridge.LogCleanup c1;
   Bridge.WsClose 3] /\
  Bridge.activeCalls
    (Bridge.onCallEvent c1 (Bridge.BackendClosed (Some 7))
       (fst (BridgeApi.connect (Some c1) (Some 8) one_call))) = ∅.
Proof. vm_compute. split; reflexivity. Qed.

(** ** Shutdown *)

Lemma shutdown_entry_registry (k : list N) (b : Bridge.bridge) :
  Bridge.activeCalls (BridgeApi.shutdown_entry k b) =
  delete k (Bridge.activeCalls b).
Proof.
  unfold BridgeApi.shutdown_entry.
  match goal with
  | |- context [match ?x with Some _ => _ | None => _ end] =>
      destruct x as [d|] eqn:Hd
  end.
  - rewrite cleanup_registry. now destruct (Bridge.call d).
  - symmetry. now apply delete_id.
Qed.

Lemma shutdown_entry_effects (k : list N) (b : Bridge.bridge) :
  exists l, Bridge.effects (BridgeApi.shutdown_entry k b) =
            Bridge.effects b ++ l /\
            forall d, Bridge.activeCalls b !! k = Some d ->
              In (Bridge.LogCleanup k) l /\
              (forall h, Bridge.call d = Some h ->
                         In (Bridge.CallHangup h) l) /\
              (forall w, Bridge.ws d = Some w ->
                         In (Bridge.WsClose (Bridge.ws_id w)) l).
Proof.
  unfold BridgeApi.shutdown_entry.
  match goal with
  | |- context [match ?x with Some _ => _ | None => _ end] =>
      destruct x as [d|] eqn:Hd
  end.
  - assert (Hsame : forall d', Bridge.activeCalls b !! k = Some d' -> d' = d).
    { intros d' Hd'.
      pose proof (eq_trans (eq_sym Hd') Hd : Some d' = Some d) as He.
      now injection He. }
    destruct (Bridge.call d) as [h|] eqn:Hc.
    + rewrite (cleanup_present (Bridge.emit (Bridge.CallHangup h) b) k d Hd).
      cbn [Bridge.effects Bridge.emit]. rewrite <- app_assoc.
      eexists. split; [reflexivity|].
      intros d' Hd'. apply Hsame in Hd' as ->.
      split; [right; now left|]. split.
      * intros h' Hh. rewrite Hc in Hh. injection Hh as <-. now left.
      * intros w Hw. rewrite Hw. right. right. now left.
    + rewrite (cleanup_present b k d Hd).
      eexists. split; [reflexivity|].
      intros d' Hd'. apply Hsame in Hd' as ->.
      split; [now left|]. split.
      * intros h' Hh. congruence.
      * intros w Hw. rewrite Hw. right. now left.
  - exists []. rewrite app_nil_r. split; [reflexivity|].
    intros d Hd'.
    pose proof (eq_trans (eq_sym Hd') Hd : Some d = None) as He.
    discriminate.
Qed.

Lemma shutdown_lookup (order : list (list N)) (b : Bridge.bridge)
    (k : list N) :
  (k ∈ order -> Bridge.activeCalls (BridgeApi.shutdown order b) !! k = None) /\
  (k ∉ order -> Bridge.activeCalls (BridgeApi.shutdown order b) !! k =
                Bridge.activeCalls b !! k).
Proof.
  revert b. induction order as [|k' order IH]; intros b.
  - split; [intros H; inversion H|reflexivity].
  - cbn [BridgeApi.shutdown fold_left].
    change (fold_left (fun st callId => BridgeApi.shutdown_entry callId st)
              order (BridgeApi.shutdown_entry k' b))
      with (BridgeApi.shutdown order (BridgeApi.shutdown_entry k' b)).
    destruct (IH (BridgeApi.shutdown_entry k' b)) as [Hin Hout].
    rewrite shutdown_entry_registry in Hout.
    split.
    + intros Hk. destruct (decide (k ∈ order)) as [Ho|Ho]; [now apply Hin|].
      rewrite (Hout Ho). apply elem_of_cons in Hk as [->|Hk];
        [apply lookup_delete_eq|contradiction].
    + intros Hk. apply not_elem_of_cons in Hk as [Hne Ho].
      rewrite (Hout Ho). now apply lookup_delete_ne.
Qed.

Lemma shutdown_effects (order : list (list N)) (b : Bridge.bridge)
    (k : list N) (d : Bridge.callData) :
  k ∈ order -> Bridge.activeCalls b !! k = Some d ->
  exists l, Bridge.effects (BridgeApi.shutdown order b) =
            Bridge.effects b ++ l /\
            In (Bridge.LogCleanup k) l /\
            (forall h, Bridge.call d = Some h ->
                       In (Bridge.CallHangup h) l) /\
            (forall w, Bridge.ws d = Some w ->
                       In (Bridge.WsClose (Bridge.ws_id w)) l).
Proof.
  assert (Hgrow : forall order b,
            exists l, Bridge.effects (BridgeApi.shutdown order b) =
                      Bridge.effects b ++ l).
  { clear. induction order as [|k' order IH]; intros b.
    - exists []. now rewrite app_nil_r.
    - cbn [BridgeApi.shutdown fold_left].
      destruct (IH (BridgeApi.shutdown_entry k' b)) as (l & Hl).
      destruct (shutdown_entry_effects k' b) as (l' & Hl' & _).
      exists (l' ++ l). unfold BridgeApi.shutdown in Hl.
      now rewrite Hl, Hl', app_assoc. }
  revert b. induction order as [|k' order IH]; intros b Hk Hd.
  - inversion Hk.
  - cbn [BridgeApi.shutdown fold_left].
    destruct (shutdown_entry_effects k' b) as (l' & Hl' & Hhere).
    destruct (decide (k = k')) as [->|Hne].
    + destruct (Hgrow order (BridgeApi.shutdown_entry k' b)) as (l & Hl).
      unfold BridgeApi.shutdown in Hl. rewrite Hl, Hl', <- app_assoc.
      destruct (Hhere d Hd) as (H1 & H2 & H3).
      exists (l' ++ l). split; [reflexivity|].
      split; [apply in_or_app; now left|]. split.
      * intros h Hh. apply in_or_app. left. now apply H2.
      * intros w Hw. apply in_or_app. left. now apply H3.
    + apply elem_of_cons in Hk as [?|Hk]; [contradiction|].
      destruct (IH (BridgeApi.shutdown_entry k' b) Hk)
        as (l & Hl & H1 & H2 & H3).
      { rewrite shutdown_entry_registry. now rewrite lookup_delete_ne. }
      unfold BridgeApi.shutdown in Hl. rewrite Hl, Hl', <- app_assoc.
      exists (l' ++ l). split; [reflexivity|].
      split; [apply in_or_app; now right|]. split.
      * intros h Hh. apply in_or_app. right. now apply H2.
      * intros w Hw. apply in_or_app. right. now apply H3.
Qed.

(** X15. Shutdown on [SIGINT]: when the loop visits every registered id,
    the registry ends up empty, and for every call that was registered
    [cleanup] has run, its SDK call (if one was stored) has been hung up
    and its socket (if one was stored) has been closed; nothing that was
    written before is lost from the log of effects. *)
Theorem shutdown_clears_registry (order : list (list N))
    (b : Bridge.bridge) :
  (forall k, is_Some (Bridge.activeCalls b !! k) -> k ∈ order) ->
  Bridge.activeCalls (BridgeApi.shutdown order b) = ∅ /\
  BridgeApi.health_active_calls (BridgeApi.shutdown order b) = 0 /\
  forall k d, Bridge.activeCalls b !! k = Some d ->
    exists l, Bridge.effects (BridgeApi.shutdown order b) =
              Bridge.effects b ++ l /\
              In (Bridge.LogCleanup k) l /\
              (forall h, Bridge.call d = Some h ->
                         In (Bridge.CallHangup h) l) /\
              (forall w, Bridge.ws d = Some w ->
                         In (Bridge.WsClose (Bridge.ws_id w)) l).
Proof.
  intros Hall.
  assert (He : Bridge.activeCalls (BridgeApi.shutdown order b) = ∅).
  { apply map_eq. intros k. rewrite lookup_empty.
    destruct (shutdown_lookup order b k) as [Hin Hout].
    destruct (decide (k ∈ order)) as [Ho|Ho]; [exact (Hin Ho)|].
    transitivity (Bridge.activeCalls b !! k); [exact (Hout Ho)|].
    apply eq_None_not_Some. intros Hs. apply Ho, Hall, Hs. }
  split; [exact He|]. split.
  { unfold BridgeApi.health_active_calls. rewrite He. apply map_size_empty. }
  intros k d Hd. apply shutdown_effects; [|exact Hd].
  apply Hall. eauto.
Qed.

Lemma shutdown_clears_registry_witness :
  Bridge.activeCalls (BridgeApi.shutdown [c1] one_call) = ∅.
Proof.
  assert (Hall : forall k, is_Some (Bridge.activeCalls one_call !! k) ->
                           k ∈ [c1]).
  { intros k Hs. destruct (decide (k = c1)) as [->|Hne];
      [apply elem_of_cons; now left|].
    exfalso. revert Hs. apply eq_None_not_Some.
    transitivity (Bridge.activeCalls (Bridge.storeCall c1 7 no_calls) !! k).
    - unfold one_call, Bridge.storeWs.
      cbn [Bridge.activeCalls Bridge.set_activeCalls].
      apply lookup_alter_ne. congruence.
    - rewrite storeCall_other by exact Hne. apply lookup_empty. }
  destruct (shutdown_clears_registry [c1] one_call Hall) as [H _].
  exact H.
Defined.

(** ** The first scenario's webhooks *)

Lemma setup_sendWebhook_spec (data : SetupScenario.payload)
    (s : SetupScenario.scenario) :
  SetupScenario.webhookUrl (SetupScenario.sendWebhook data s) =
    SetupScenario.webhookUrl s /\
  SetupScenario.customData_ (SetupScenario.sendWebhook data s) =
    SetupScenario.customData_ s /\
  SetupScenario.trace (SetupScenario.sendWebhook data s) =
    SetupScenario.trace s ++
    (if truthy (SetupScenario.webhookUrl s)
     then [SetupScenario.Post (default [] (SetupScenario.webhookUrl s)) data]
     else []).
Proof.
  unfold SetupScenario.sendWebhook.
  destruct (truthy (SetupScenario.webhookUrl s)); cbn;
    rewrite ?app_nil_r; repeat split.
Qed.

(** What one event of the call adds to the trace: webhooks (when there
    is a URL), then other calls on the platform. *)
Lemma setup_step_spec (s : SetupScenario.scenario)
    (ev : SetupScenario.call_event) :
  SetupScenario.webhookUrl (SetupScenario.step s ev) =
    SetupScenario.webhookUrl s /\
  SetupScenario.customData_ (SetupScenario.step s ev) =
    SetupScenario.customData_ s /\
  exists posts rest,
    SetupScenario.trace (SetupScenario.step s ev) =
      SetupScenario.trace s ++
      (if truthy (SetupScenario.webhookUrl s) then posts else []) ++ rest /\
    (forall e, In e posts -> SetupScenario.is_post e = true) /\
    List.filter SetupScenario.is_post rest = [] /\
    (In SetupScenario.Terminate rest ->
     rest = [SetupScenario.Terminate] /\
     exists data,
       posts = [SetupScenario.Post
                  (default [] (SetupScenario.webhookUrl s)) data] /\
       SetupScenario.payload_call_id data =
         SetupScenario.call_id (SetupScenario.customData_ s) /\
       is_Some (SetupScenario.payload_reason data) /\
       SetupScenario.timestamp data = Some (SetupScenario.clock s)).
Proof.
  assert (Hnothing : forall tr,
            exists posts rest : list SetupScenario.effect,
              tr = tr ++
                (if truthy (SetupScenario.webhookUrl s) then posts else [])
                ++ rest /\
              (forall e, In e posts -> SetupScenario.is_post e = true) /\
              List.filter SetupScenario.is_post rest = [] /\
              (In SetupScenario.Terminate rest ->
               rest = [SetupScenario.Terminate] /\
               exists data,
                 posts = [SetupScenario.Post
                            (default [] (SetupScenario.webhookUrl s)) data] /\
                 SetupScenario.payload_call_id data =
                   SetupScenario.call_id (SetupScenario.customData_ s) /\
                 is_Some (SetupScenario.payload_reason data) /\
                 SetupScenario.timestamp data =
                   Some (SetupScenario.clock s))).
  { intros tr. exists [], [].
    destruct (truthy (SetupScenario.webhookUrl s)); rewrite !app_nil_r;
      (split; [reflexivity|]); (split; [intros e []|]);
      (split; [reflexivity|]); intros []. }
  assert (Hsent : forall data rest,
            List.filter SetupScenario.is_post rest = [] ->
            (In SetupScenario.Terminate rest ->
             rest = [SetupScenario.Terminate] /\
             SetupScenario.payload_call_id data =
               SetupScenario.call_id (SetupScenario.customData_ s) /\
             is_Some (SetupScenario.payload_reason data) /\
             SetupScenario.timestamp data = Some (SetupScenario.clock s)) ->
            exists posts rest' : list SetupScenario.effect,
              SetupScenario.trace (SetupScenario.sendWebhook data s) ++ rest =
                SetupScenario.trace s ++
                (if truthy (SetupScenario.webhookUrl s) then posts else [])
                ++ rest' /\
              (forall e, In e posts -> SetupScenario.is_post e = true) /\
              List.filter SetupScenario.is_post rest' = [] /\
              (In SetupScenario.Terminate rest' ->
               rest' = [SetupScenario.Terminate] /\
               exists data',
                 posts = [SetupScenario.Post
                            (default [] (SetupScenario.webhookUrl s)) data'] /\
                 SetupScenario.payload_call_id data' =
                   SetupScenario.call_id (SetupScenario.customData_ s) /\
                 is_Some (SetupScenario.payload_reason data') /\
                 SetupScenario.timestamp data' =
                   Some (SetupScenario.clock s))).
  { intros data rest Hf Hterm.
    destruct (setup_sendWebhook_spec data s) as (_ & _ & Ht).
    exists [SetupScenario.Post (default [] (SetupScenario.webhookUrl s)) data],
      rest.
    rewrite Ht, <- app_assoc. split; [reflexivity|].
    split; [intros e [<-|[]]; reflexivity|].
    split; [exact Hf|].
    intros Hin. destruct (Hterm Hin) as (Hr & Hrest).
    split; [exact Hr|]. exists data. split; [reflexivity|exact Hrest]. }
  destruct ev as [ms| | | |code text|isHuman]; cbn [SetupScenario.step].
  - split; [reflexivity|]. split; [reflexivity|]. apply Hnothing.
  - unfold SetupScenario.onCallConnected.
    match goal with
    | |- context [SetupScenario.sendWebhook ?d s] =>
        destruct (setup_sendWebhook_spec d s) as (Hu & Hc & _);
        pose proof (Hsent d [SetupScenario.Say; SetupScenario.SetTimeout5000])
          as Hs
    end.
    cbn [SetupScenario.emit SetupScenario.webhookUrl
         SetupScenario.customData_ SetupScenario.trace].
    split; [exact Hu|]. split; [exact Hc|].
    rewrite <- app_assoc. apply Hs; [reflexivity|].
    simpl. intuition discriminate.
  - unfold SetupScenario.onTimeout.
    destruct (SetupScenario.callSession s).
    + cbn [SetupScenario.emit SetupScenario.webhookUrl
           SetupScenario.customData_ SetupScenario.trace].
      split; [reflexivity|]. split; [reflexivity|].
      exists [], [SetupScenario.Hangup].
      split; [now destruct (truthy (SetupScenario.webhookUrl s))|].
      split; [intros e []|]. split; [reflexivity|].
      simpl. intuition discriminate.
    + split; [reflexivity|]. split; [reflexivity|]. apply Hnothing.
  - unfold SetupScenario.onCallDisconnected.
    match goal with
    | |- context [SetupScenario.sendWebhook ?d s] =>
        destruct (setup_sendWebhook_spec d s) as (Hu & Hc & _);
        pose proof (Hsent d [SetupScenario.Terminate]) as Hs
    end.
    cbn [SetupScenario.emit SetupScenario.webhookUrl
         SetupScenario.customData_ SetupScenario.trace].
    split; [exact Hu|]. split; [exact Hc|].
    apply Hs; [reflexivity|]. intros _. cbn. repeat split. eauto.
  - unfold SetupScenario.onCallFailed.
    match goal with
    | |- context [SetupScenario.sendWebhook ?d s] =>
        destruct (setup_sendWebhook_spec d s) as (Hu & Hc & _);
        pose proof (Hsent d [SetupScenario.Terminate]) as Hs
    end.
    cbn [SetupScenario.emit SetupScenario.webhookUrl
         SetupScenario.customData_ SetupScenario.trace].
    split; [exact Hu|]. split; [exact Hc|].
    apply Hs; [reflexivity|]. intros _. cbn. repeat split. eauto.
  - unfold SetupScenario.onAMDDetected. destruct isHuman.
    + split; [reflexivity|]. split; [reflexivity|]. apply Hnothing.
    + match goal with
      | |- context [SetupScenario.sendWebhook ?d s] =>
          destruct (setup_sendWebhook_spec d s) as (Hu & Hc & _);
          pose proof (Hsent d [SetupScenario.Hangup]) as Hs
      end.
      cbn [SetupScenario.emit SetupScenario.webhookUrl
           SetupScenario.customData_ SetupScenario.trace].
      split; [exact Hu|]. split; [exact Hc|].
      apply Hs; [reflexivity|]. simpl. intuition discriminate.
Qed.

Lemma setup_run_silent (evs : list SetupScenario.call_event)
    (s : SetupScenario.scenario) :
  truthy (SetupScenario.webhookUrl s) = false ->
  List.filter SetupScenario.is_post
    (SetupScenario.trace (SetupScenario.run s evs)) =
  List.filter SetupScenario.is_post (SetupScenario.trace s).
Proof.
  revert s. induction evs as [|ev evs IH]; intros s Hu; [reflexivity|].
  cbn [SetupScenario.run fold_left].
  change (fold_left SetupScenario.step evs (SetupScenario.step s ev))
    with (SetupScenario.run (SetupScenario.step s ev) evs).
  destruct (setup_step_spec s ev)
    as (Hu' & _ & posts & rest & Ht & _ & Hf & _).
  rewrite IH by now rewrite Hu'.
  rewrite Ht, Hu. cbn [app].
  now rewrite List.filter_app, Hf, app_nil_r.
Qed.

(** X16. A scenario without a webhook URL reports nothing: when the
    custom data do not parse, or carry no [webhook_url], no webhook is
    ever posted, whatever happens to the call. In particular a scenario
    whose custom data do not parse only terminates: the Failed webhook of
    the [catch] block is not sent, because [webhookUrl] is still empty. *)
Theorem no_url_no_webhook :
  (forall parsed pstn_ok t0 evs,
     truthy (parsed ≫= SetupScenario.webhook_url) = false ->
     List.filter SetupScenario.is_post
       (SetupScenario.trace
          (SetupScenario.run
             (SetupScenario.onStarted parsed pstn_ok
                (SetupScenario.declared t0)) evs)) = []) /\
  (forall pstn_ok t0,
     SetupScenario.trace
       (SetupScenario.onStarted None pstn_ok (SetupScenario.declared t0)) =
     [SetupScenario.Terminate]).
Proof.
  split; [|reflexivity].
  intros parsed pstn_ok t0 evs Hu.
  rewrite setup_run_silent.
  - destruct parsed as [d|]; [|reflexivity].
    cbn in Hu. unfold SetupScenario.onStarted.
    destruct pstn_ok; [reflexivity|].
    unfold SetupScenario.sendWebhook.
    cbn [SetupScenario.webhookUrl]. now rewrite Hu.
  - destruct parsed as [d|]; [|reflexivity].
    cbn in Hu. unfold SetupScenario.onStarted.
    destruct pstn_ok; [exact Hu|].
    unfold SetupScenario.sendWebhook.
    cbn [SetupScenario.webhookUrl]. now rewrite Hu.
Qed.

Lemma no_url_no_webhook_witness :
  List.filter SetupScenario.is_post
    (SetupScenario.trace
       (SetupScenario.run
          (SetupScenario.onStarted
             (Some (SetupScenario.mkCustomData (Some c1) None None None))
             true (SetupScenario.declared 0))
          [SetupScenario.CallConnected; SetupScenario.Timeout;
           SetupScenario.CallDisconnected])) = [].
Proof.
  destruct no_url_no_webhook as [H _].
  apply (H (Some (SetupScenario.mkCustomData (Some c1) None None None))
           true 0%N).
  reflexivity.
Defined.

(** X17. With a webhook URL, the first scenario never terminates
    unreported: whenever a call event makes it terminate, it has posted
    exactly one webhook to that URL just before, carrying the call id of
    the custom data, a reason and the current time. A failed call is
    reported as busy exactly for code 486 and as unanswered exactly for
    codes 480 and 408. *)
Theorem termination_is_reported :
  (forall s ev,
     truthy (SetupScenario.webhookUrl s) = true ->
     In SetupScenario.Terminate
       (drop (length (SetupScenario.trace s))
          (SetupScenario.trace (SetupScenario.step s ev))) ->
     exists data,
       SetupScenario.trace (SetupScenario.step s ev) =
         SetupScenario.trace s ++
         [SetupScenario.Post (default [] (SetupScenario.webhookUrl s)) data;
          SetupScenario.Terminate] /\
       SetupScenario.payload_call_id data =
         SetupScenario.call_id (SetupScenario.customData_ s) /\
       is_Some (SetupScenario.payload_reason data) /\
       SetupScenario.timestamp data = Some (SetupScenario.clock s)) /\
  (forall code text,
     (SetupScenario.failure_reason code text = SetupScenario.Busy <->
      code = 486%Z) /\
     (SetupScenario.failure_reason code text = SetupScenario.NoAnswer <->
      code = 480%Z \/ code = 408%Z)).
Proof.
  split.
  - intros s ev Hu Hin.
    destruct (setup_step_spec s ev)
      as (_ & _ & posts & rest & Ht & Hposts & Hf & Hterm).
    rewrite Hu in Ht. rewrite Ht, drop_app_length in Hin.
    assert (Hrest : In SetupScenario.Terminate rest).
    { apply in_app_or in Hin as [Hin|Hin]; [|exact Hin].
      apply Hposts in Hin. discriminate. }
    destruct (Hterm Hrest) as (-> & data & -> & Hd).
    exists data. split; [exact Ht|exact Hd].
  - intros code text. unfold SetupScenario.failure_reason.
    destruct (Z.eqb_spec code 486) as [->|H486].
    + split; split; try reflexivity; try discriminate.
      intros [H|H]; discriminate.
    + destruct (Z.eqb_spec code 480) as [->|H480];
        [|destruct (Z.eqb_spec code 408) as [->|H408]]; cbn;
        split; split; try reflexivity; try discriminate; try tauto;
        try (intros [H|H]; congruence); auto.
Qed.

Lemma termination_is_reported_witness :
  exists data,
    SetupScenario.trace
      (SetupScenario.step
         (SetupScenario.onStarted
            (Some (SetupScenario.mkCustomData (Some c1) None None
                     (Some x_io)))
            true (SetupScenario.declared 5))
         (SetupScenario.CallFailed 486 [])) =
    [SetupScenario.CallPSTN None None] ++
    [SetupScenario.Post x_io data; SetupScenario.Terminate].
Proof.
  destruct termination_is_reported as [H _].
  destruct (H (SetupScenario.onStarted
                 (Some (SetupScenario.mkCustomData (Some c1) None None
                          (Some x_io)))
                 true (SetupScenario.declared 5))
              (SetupScenario.CallFailed 486 [])) as (data & Ht & _).
  - reflexivity.
  - vm_compute. right. now left.
  - exists data. exact Ht.
Defined.
